(** * Incident-investigation agents: state, message bus, commander, metrics

    A shallow embedding of the Python sources

      - [state.py]                                   (module [State])
      - [allStandaloneAgents/commander_agent.py]     (module [Commander])
      - [allStandaloneAgents/metrics_agent_standalone.py] (module [Metrics])

    together with the properties of the orchestration and correlation
    engine that the specification states about them.

    Conventions of the embedding.

    - A Python [str] is a Rocq [string]: the bytes of its UTF-8 encoding.
      The substring test [a in b] on code points and on UTF-8 bytes agree,
      because UTF-8 is self-synchronising.
    - [str.lower] is not re-implemented: the commander is parameterised by
      a function [lower]; [ascii_lower] is the instance used for running
      the model on ASCII text.
    - A Python number is an int ([Z]; a bool counts as 0 or 1) or a
      float: a finite float is the rational it denotes ([Q]), beside the
      infinities and NaN.  Which divisions raise (ZeroDivisionError, and
      OverflowError beyond the range of a float) is modelled; how results
      are rounded, [round(_, 1)] and [str] are fields of a [Runtime] that
      the metrics agent is parameterised by.
    - Telemetry read from JSON is untyped: the entries of a series and the
      pods are values ([PyVal]), and reading a key of one can raise.
    - [uuid.uuid4()], [datetime.now()] and the file system are read from a
      [World] that every operation threads through.
    - Code that raises is a computation in the monad [Py]: it returns
      either a value or the exception, and in both cases the state reached
      (a Python exception does not roll back earlier assignments).
    - [print] output is not modelled; the step counter of [_log] is. *)

From Stdlib Require Import QArith Qround Ascii.
From stdpp Require Import gmap strings list pretty sorting.

Open Scope string_scope.
Open Scope list_scope.

(** ** Python values and exceptions *)

(** JSON-like values held in the open dictionaries ([alert], [evidence],
    [payload]). *)
#[local] Unset Elimination Schemes.
Inductive PyVal : Type :=
  | VNone
  | VBool (b : bool)
  | VInt (z : Z)
  | VFloat (q : Q)
  | VInf (negative : bool)   (* float("inf"), float("-inf"): JSON's Infinity *)
  | VNaN                     (* float("nan"): JSON's NaN *)
  | VStr (s : string)
  | VList (l : list PyVal)
  | VDict (d : list (string * PyVal)).
#[local] Set Elimination Schemes.

(** [v == s] for a string literal [s]. *)
Definition py_eq_str (v : PyVal) (s : string) : bool :=
  match v with
  | VStr t => String.eqb t s
  | _ => false
  end.

Inductive PyExn : Type :=
  | KeyError (key : string)
  | OSError (path : string)
  | JSONDecodeError (path : string)   (* a ValueError, raised by json.load *)
  | ZeroDivisionError
  | OverflowError
  | TypeError
  | ValueError
  | OtherError (class : string).      (* any other exception class *)

Inductive Outcome (A : Type) : Type :=
  | Ret (a : A)
  | Raise (e : PyExn).
Arguments Ret {A} a.
Arguments Raise {A} e.

Definition returned {A} (o : Outcome A) : Prop :=
  match o with Ret _ => True | Raise _ => False end.

Definition raised {A} (o : Outcome A) (e : PyExn) : Prop :=
  match o with Ret _ => False | Raise e' => e' = e end.

(** ** Numbers *)

(** [d[key]] on the items of a dictionary, [None] when the key is absent. *)
Fixpoint dict_get (d : list (string * PyVal)) (key : string) : option PyVal :=
  match d with
  | [] => None
  | (k, v) :: d' => if String.eqb k key then Some v else dict_get d' key
  end.

(** A float; a finite one is the rational it denotes. *)
Inductive PyFloat : Type :=
  | Finite (q : Q)
  | Infinite (negative : bool)
  | NaN.

(** The numbers among the values: int (bool included, as 0 and 1) and
    float. *)
Inductive PyNum : Type :=
  | PInt (z : Z)
  | PFloat (f : PyFloat).

Definition float_val (f : PyFloat) : PyVal :=
  match f with
  | Finite q => VFloat q
  | Infinite b => VInf b
  | NaN => VNaN
  end.

Definition as_num (v : PyVal) : option PyNum :=
  match v with
  | VBool b => Some (PInt (if b then 1 else 0))
  | VInt z => Some (PInt z)
  | VFloat q => Some (PFloat (Finite q))
  | VInf b => Some (PFloat (Infinite b))
  | VNaN => Some (PFloat NaN)
  | _ => None
  end.

(** The extended rational a number denotes; NaN denotes none. *)
Inductive Ext : Type :=
  | NegInf
  | Fin (q : Q)
  | PosInf.

Definition ext_of (n : PyNum) : option Ext :=
  match n with
  | PInt z => Some (Fin (inject_Z z))
  | PFloat (Finite q) => Some (Fin q)
  | PFloat (Infinite true) => Some NegInf
  | PFloat (Infinite false) => Some PosInf
  | PFloat NaN => None
  end.

Definition ext_ltb (a b : Ext) : bool :=
  match a, b with
  | NegInf, NegInf => false
  | NegInf, _ => true
  | Fin x, Fin y => negb (Qle_bool y x)
  | Fin _, PosInf => true
  | _, _ => false
  end.

(** [a > b] on numbers: by value, int against float included; False when
    either is NaN. *)
Definition num_gt (a b : PyNum) : bool :=
  match ext_of a, ext_of b with
  | Some x, Some y => ext_ltb y x
  | _, _ => false
  end.

Definition float_is_zero (f : PyFloat) : bool :=
  match f with
  | Finite q => Qeq_bool q 0
  | _ => false
  end.

Definition num_is_zero (n : PyNum) : bool :=
  match n with
  | PInt z => (z =? 0)%Z
  | PFloat f => float_is_zero f
  end.

(** The least magnitude that rounds beyond the greatest float
    (2^1024 - 2^971): half way from it to 2^1024. *)
Definition float_limit : Z := 2 ^ 1024 - 2 ^ 970.

(** [float(z)] raises OverflowError. *)
Definition int_too_large (z : Z) : bool := (float_limit <=? Z.abs z)%Z.

(** For [y ≠ 0], the float nearest to [x / y] is beyond the greatest float. *)
Definition quotient_too_large (x y : Z) : bool :=
  (float_limit * Z.abs y <=? Z.abs x)%Z.

(** What [a / b] raises, if it does.  int / int checks the divisor, then
    the size of the quotient; with a float operand, the int operand is
    converted to float first (OverflowError when it is too large) and
    the divisor is checked after. *)
Definition div_error (a b : PyNum) : option PyExn :=
  match a, b with
  | PInt x, PInt y =>
      if (y =? 0)%Z then Some ZeroDivisionError
      else if quotient_too_large x y then Some OverflowError
      else None
  | PInt x, PFloat g =>
      if int_too_large x then Some OverflowError
      else if float_is_zero g then Some ZeroDivisionError
      else None
  | PFloat _, PInt y =>
      if int_too_large y then Some OverflowError
      else if (y =? 0)%Z then Some ZeroDivisionError
      else None
  | PFloat _, PFloat g =>
      if float_is_zero g then Some ZeroDivisionError else None
  end.

(** The operations of the interpreter whose results the model leaves
    open: the rounding of float arithmetic, the text of [str] (which an
    interpreter that limits the digits of an int as text refuses, with a
    ValueError, for a larger int), and [>] on two values neither of which
    is a number. *)
Record Runtime : Type := mkRuntime {
  int_div : Z -> Z -> Q;          (* x / y on ints, y ≠ 0, within float range *)
  to_float : Z -> Q;              (* float(z), within float range *)
  float_div : PyFloat -> PyFloat -> PyFloat;   (* f / g on floats, g ≠ 0 *)
  round1 : PyFloat -> PyFloat;    (* round(f, 1) *)
  py_str : PyVal -> Outcome string;            (* str(v), as an f-string formats v *)
  float_str : PyFloat -> string;               (* str(f) of a float *)
  list_str : list string -> string;            (* str of a list of strings *)
  other_gt : PyVal -> PyVal -> Outcome bool    (* v > u, neither a number *)
}.

(** The value of [a / b] when it raises nothing. *)
Definition quotient (rt : Runtime) (a b : PyNum) : PyFloat :=
  match a, b with
  | PInt x, PInt y => Finite (int_div rt x y)
  | PInt x, PFloat g => float_div rt (Finite (to_float rt x)) g
  | PFloat f, PInt y => float_div rt f (Finite (to_float rt y))
  | PFloat f, PFloat g => float_div rt f g
  end.

(** ** The world: identifiers, clock, files *)

Record World : Type := mkWorld {
  uuid_stream : nat -> string;  (* k-th value of uuid.uuid4().hex[:8] *)
  uuid_drawn  : nat;            (* how many have been drawn *)
  clock       : nat -> string;  (* k-th value of datetime.now(utc).isoformat() *)
  clock_read  : nat;
  readable    : string -> bool; (* does open()/json.load() of the file succeed *)
  load_failure : string -> PyExn
    (* what open()/json.load() raises on a file that does not load: the
       OSError of open(), or the JSONDecodeError (or other error) of
       json.load() on a file that opens but does not parse *)
}.

(** ** The monad of Python computations over a state [St] *)

Definition Py (St A : Type) : Type :=
  World * St -> Outcome A * (World * St).

Definition py_ret {St A} (a : A) : Py St A := fun ws => (Ret a, ws).

Definition py_bind {St A B} (f : A -> Py St B) (m : Py St A) : Py St B :=
  fun ws =>
    match m ws with
    | (Ret a, ws') => f a ws'
    | (Raise e, ws') => (Raise e, ws')
    end.

#[global] Instance Py_ret {St} : MRet (Py St) := @py_ret St.
#[global] Instance Py_bind {St} : MBind (Py St) := @py_bind St.

Definition py_raise {St A} (e : PyExn) : Py St A := fun ws => (Raise e, ws).

Definition get {St} : Py St St := fun ws => (Ret (snd ws), ws).

Definition modify {St} (f : St -> St) : Py St unit :=
  fun ws => (Ret tt, (fst ws, f (snd ws))).

Definition tick_uuid (w : World) : World :=
  mkWorld (uuid_stream w) (S (uuid_drawn w)) (clock w) (clock_read w) (readable w)
    (load_failure w).
Definition tick_clock (w : World) : World :=
  mkWorld (uuid_stream w) (uuid_drawn w) (clock w) (S (clock_read w)) (readable w)
    (load_failure w).

(** uuid.uuid4().hex[:8] *)
Definition uid {St} : Py St string :=
  fun ws => (Ret (uuid_stream (fst ws) (uuid_drawn (fst ws))), (tick_uuid (fst ws), snd ws)).

(** datetime.now(timezone.utc).isoformat() *)
Definition now {St} : Py St string :=
  fun ws => (Ret (clock (fst ws) (clock_read (fst ws))), (tick_clock (fst ws), snd ws)).

(** [for x in xs: body x] *)
Fixpoint for_each {St A} (xs : list A) (body : A -> Py St unit) : Py St unit :=
  match xs with
  | [] => mret tt
  | x :: xs' => body x ;; for_each xs' body
  end.

(** Result, final world and final state of a run. *)
Definition outcome_of {St A} (r : Outcome A * (World * St)) : Outcome A := fst r.
Definition world_of {St A} (r : Outcome A * (World * St)) : World := fst (snd r).
Definition state_of {St A} (r : Outcome A * (World * St)) : St := snd (snd r).

(** ** Strings *)

(** [needle in hay] *)
Fixpoint str_contains (needle hay : string) : bool :=
  if String.prefix needle hay then true
  else match hay with
       | EmptyString => false
       | String _ hay' => str_contains needle hay'
       end.

Definition lower_ascii_char (c : ascii) : ascii :=
  let n := nat_of_ascii c in
  if (65 <=? n)%nat && (n <=? 90)%nat then ascii_of_nat (n + 32) else c.

(** [str.lower] restricted to ASCII text. *)
Fixpoint ascii_lower (s : string) : string :=
  match s with
  | EmptyString => EmptyString
  | String c s' => String (lower_ascii_char c) (ascii_lower s')
  end.

(** [any(p x for x in xs)] *)
Definition any {A} (p : A -> bool) (xs : list A) : bool := existsb p xs.

(** ** state.py *)

Module State.

Inductive Severity : Type := P1_CRITICAL | P2_HIGH | P3_MEDIUM | P4_LOW.

Inductive AgentRole : Type := COMMANDER | LOGS_AGENT | METRICS_AGENT | DEPLOY_INTEL.

Inductive InvestigationPhase : Type :=
  | ALERT_RECEIVED
  | TRIAGE
  | PARALLEL_INVESTIGATION
  | CORRELATION
  | ROOT_CAUSE_ANALYSIS
  | REMEDIATION_PLAN
  | COMPLETE.

Inductive MessageType : Type :=
  | INVESTIGATION_TASK
  | FINDING
  | CORRELATION_REQUEST
  | STATUS_UPDATE
  | ESCALATION
  | REMEDIATION_ACTION.

(** The [.value] of the members of the [str]-mixin enums. *)
Definition Severity_value (s : Severity) : string :=
  match s with
  | P1_CRITICAL => "P1_CRITICAL"
  | P2_HIGH => "P2_HIGH"
  | P3_MEDIUM => "P3_MEDIUM"
  | P4_LOW => "P4_LOW"
  end.

Definition AgentRole_value (r : AgentRole) : string :=
  match r with
  | COMMANDER => "commander"
  | LOGS_AGENT => "logs_agent"
  | METRICS_AGENT => "metrics_agent"
  | DEPLOY_INTEL => "deploy_intel"
  end.

(** The members of [InvestigationPhase] in declaration order. *)
Definition InvestigationPhase_members : list InvestigationPhase :=
  [ALERT_RECEIVED; TRIAGE; PARALLEL_INVESTIGATION; CORRELATION;
   ROOT_CAUSE_ANALYSIS; REMEDIATION_PLAN; COMPLETE].

#[global] Instance Severity_eq_dec : EqDecision Severity.
Proof. solve_decision. Defined.
#[global] Instance AgentRole_eq_dec : EqDecision AgentRole.
Proof. solve_decision. Defined.
#[global] Instance InvestigationPhase_eq_dec : EqDecision InvestigationPhase.
Proof. solve_decision. Defined.
#[global] Instance MessageType_eq_dec : EqDecision MessageType.
Proof. solve_decision. Defined.

Record Finding : Type := mkFinding {
  f_id : string;
  f_agent : AgentRole;
  f_timestamp : string;
  f_title : string;
  f_description : string;
  f_severity : Severity;
  f_evidence : list (string * PyVal);
  f_related_services : list string;
  f_related_log_ids : list string;
  f_confidence : Q  (* 0.0 – 1.0 *)
}.

Record RootCauseAnalysis : Type := mkRootCauseAnalysis {
  rca_id : string;
  rca_timestamp : string;
  rca_summary : string;
  rca_root_causes : list (list (string * PyVal));
  rca_contributing_factors : list string;
  rca_timeline : list (list (string * string));
  rca_remediation_steps : list (list (string * PyVal));
  rca_severity : Severity;
  rca_blast_radius : list string;
  rca_findings_used : list string
}.

(** [receiver: AgentRole | str] *)
Inductive Receiver : Type :=
  | ToRole (r : AgentRole)
  | ToStr (s : string).

(** [AgentRole] mixes in [str], so a role and a plain string are [==]
    exactly when the role's value is that string. *)
Definition Receiver_value (r : Receiver) : string :=
  match r with
  | ToRole a => AgentRole_value a
  | ToStr s => s
  end.

Definition receiver_eqb (a b : Receiver) : bool :=
  String.eqb (Receiver_value a) (Receiver_value b).

Record AgentMessage : Type := mkAgentMessage {
  m_id : string;
  m_timestamp : string;
  m_sender : AgentRole;
  m_receiver : Receiver;
  m_msg_type : MessageType;
  m_payload : list (string * PyVal);
  m_in_reply_to : option string
}.

Record SharedState : Type := mkSharedState {
  investigation_id : string;
  created_at : string;
  phase : InvestigationPhase;
  severity : Severity;
  alert : gmap string PyVal;
  raw_logs : list (string * PyVal);
  raw_metrics : list (string * PyVal);
  raw_deployments : list (string * PyVal);
  investigation_plan : list (string * PyVal);
  findings : list Finding;
  message_ledger : list AgentMessage;
  correlations : list (list (string * PyVal));
  rca : option RootCauseAnalysis;
  needs_escalation : bool;
  investigation_complete : bool
}.

Definition with_findings (fs : list Finding) (s : SharedState) : SharedState :=
  mkSharedState (investigation_id s) (created_at s) (phase s) (severity s)
    (alert s) (raw_logs s) (raw_metrics s) (raw_deployments s)
    (investigation_plan s) fs (message_ledger s) (correlations s) (rca s)
    (needs_escalation s) (investigation_complete s).

Definition with_message_ledger (ms : list AgentMessage) (s : SharedState) : SharedState :=
  mkSharedState (investigation_id s) (created_at s) (phase s) (severity s)
    (alert s) (raw_logs s) (raw_metrics s) (raw_deployments s)
    (investigation_plan s) (findings s) ms (correlations s) (rca s)
    (needs_escalation s) (investigation_complete s).

(** SharedState.add_finding *)
Definition add_finding (finding : Finding) : Py SharedState unit :=
  modify (fun s => with_findings (findings s ++ [finding]) s).

(** SharedState.send_message *)
Definition send_message (msg : AgentMessage) : Py SharedState unit :=
  modify (fun s => with_message_ledger (message_ledger s ++ [msg]) s).

(** SharedState.get_messages_for *)
Definition get_messages_for (agent : AgentRole) (s : SharedState) : list AgentMessage :=
  filter (fun m => receiver_eqb (m_receiver m) (ToRole agent)
                   || receiver_eqb (m_receiver m) (ToStr "ALL") = true)
         (message_ledger s).

(** SharedState.get_findings_by_agent *)
Definition get_findings_by_agent (agent : AgentRole) (s : SharedState) : list Finding :=
  filter (fun f => f_agent f = agent) (findings s).

(** CommunicationBus.dispatch: the [AgentMessage] constructor draws the
    defaults of [id] and [timestamp] in field order. *)
Definition dispatch (sender : AgentRole) (receiver : Receiver)
    (msg_type : MessageType) (payload : list (string * PyVal))
    (in_reply_to : option string) : Py SharedState AgentMessage :=
  u ← uid;
  t ← now;
  let msg := mkAgentMessage ("msg-" +:+ u) t sender receiver msg_type payload in_reply_to in
  send_message msg ;;
  mret msg.

(** CommunicationBus.broadcast *)
Definition broadcast (sender : AgentRole) (msg_type : MessageType)
    (payload : list (string * PyVal)) : Py SharedState AgentMessage :=
  dispatch sender (ToStr "ALL") msg_type payload None.

(** CommunicationBus.inbox *)
Definition inbox (agent : AgentRole) (msg_type : option MessageType)
    (s : SharedState) : list AgentMessage :=
  let msgs := get_messages_for agent s in
  match msg_type with
  | Some t => filter (fun m => m_msg_type m = t) msgs
  | None => msgs
  end.

(** The arguments of one [dispatch] call. *)
Record DispatchCall : Type := mkDispatchCall {
  dc_sender : AgentRole;
  dc_receiver : Receiver;
  dc_msg_type : MessageType;
  dc_payload : list (string * PyVal);
  dc_in_reply_to : option string
}.

Definition dispatch_call (c : DispatchCall) : Py SharedState AgentMessage :=
  dispatch (dc_sender c) (dc_receiver c) (dc_msg_type c) (dc_payload c) (dc_in_reply_to c).

(** Consecutive [dispatch] calls on one state, collecting what each returns. *)
Fixpoint dispatch_all (calls : list DispatchCall) : Py SharedState (list AgentMessage) :=
  match calls with
  | [] => mret []
  | c :: calls' =>
      m ← dispatch_call c;
      ms ← dispatch_all calls';
      mret (m :: ms)
  end.

(** The message a call builds, given the identifier and time it drew. *)
Definition built_from (c : DispatchCall) (m : AgentMessage) : Prop :=
  m_sender m = dc_sender c /\ m_receiver m = dc_receiver c /\
  m_msg_type m = dc_msg_type c /\ m_payload m = dc_payload c /\
  m_in_reply_to m = dc_in_reply_to c.

(** The message [dispatch] builds in world [w]. *)
Definition message_of (w : World) (c : DispatchCall) : AgentMessage :=
  mkAgentMessage ("msg-" +:+ uuid_stream w (uuid_drawn w)) (clock w (clock_read w))
    (dc_sender c) (dc_receiver c) (dc_msg_type c) (dc_payload c) (dc_in_reply_to c).

(** Every field but the ledger is the same in both states. *)
Definition same_but_ledger (s s' : SharedState) : Prop :=
  with_message_ledger (message_ledger s) s' = s.

End State.

(** ** allStandaloneAgents/commander_agent.py *)

Module Commander.

(** An entry of [SPECIALIST_FINDINGS] as the module declares it. *)
Record SpecialistItem : Type := mkItem {
  si_title : string;
  si_severity : string;
  si_confidence : Q;
  si_evidence : list (string * PyVal)
}.

(** The same dictionary once [collect_findings] has set ["id"] and ["agent"]. *)
Record FindingDict : Type := mkFindingDict {
  fd_title : string;
  fd_severity : string;
  fd_confidence : Q;
  fd_evidence : list (string * PyVal);
  fd_id : string;
  fd_agent : string
}.

Definition SPECIALIST_FINDINGS : list (string * list SpecialistItem) :=
  [ ("logs_agent",
     [ mkItem "Java OutOfMemoryError in payment-service" "P1_CRITICAL" 0.97
         [("heap_mb", VInt 3891); ("threads", VInt 847)];
       mkItem "DB connection pool fully exhausted" "P1_CRITICAL" 0.95
         [("active", VInt 200); ("pending", VInt 1847)];
       mkItem "Cascading failure: order → payment-service" "P2_HIGH" 0.92
         [("error_503", VInt 1412); ("success_pct", VInt 6)];
       mkItem "Expired TLS certificate blocking DB connections" "P2_HIGH" 0.98
         [("expired", VStr "2026-02-05T23:59:59Z")];
       mkItem "Thread deadlock in batch processor" "P2_HIGH" 0.94
         [("threads", VList [VStr "worker-14"; VStr "worker-22"])];
       mkItem "Critical slow query — missing index" "P2_HIGH" 0.96
         [("rows", VInt 2800000); ("time_ms", VInt 45200)] ]);
    ("metrics_agent",
     [ mkItem "Memory leak confirmed — OOM every ~14 min" "P1_CRITICAL" 0.96
         [("rate_mb_min", VInt 95); ("gc_pct", VInt 78)];
       mkItem "P99 latency spike: 1200→25000ms (20.8x)" "P1_CRITICAL" 0.98
         [("start", VInt 1200); ("peak", VInt 25000)];
       mkItem "Error rate surged to 94.2%" "P1_CRITICAL" 0.97
         [("baseline", VFloat 2.1); ("peak", VFloat 94.2)];
       mkItem "DB pool saturated — 1847 queued" "P1_CRITICAL" 0.95
         [("active", VInt 200); ("pending", VInt 1847)];
       mkItem "2 pods critical — 33% capacity" "P1_CRITICAL" 0.99
         [("healthy_pct", VInt 33); ("circuit", VStr "OPEN")] ]);
    ("deploy_intel",
     [ mkItem "v2.14.0 introduced unbounded in-memory queue" "P1_CRITICAL" 0.98
         [("queue", VStr "in_memory_unbounded")];
       mkItem "Circuit breaker threshold raised 50%→70%" "P2_HIGH" 0.90
         [("old", VInt 50); ("new", VInt 70)];
       mkItem "Certificate rotation partial failure" "P2_HIGH" 0.97
         [("stale_pods", VInt 2)];
       mkItem "3x traffic spike from Flash Sale" "P2_HIGH" 0.93
         [("multiplier", VInt 3)];
       mkItem "DB index rebuild cancelled during maintenance" "P2_HIGH" 0.91
         [("index", VStr "idx_transactions_status_created_at")] ]) ].

(** (title, description, keywords_to_match, confidence) *)
Definition Rule : Type := string * string * list string * Q.

Definition rule_title (r : Rule) : string := let '(t, _, _, _) := r in t.
Definition rule_description (r : Rule) : string := let '(_, d, _, _) := r in d.
Definition rule_keywords (r : Rule) : list string := let '(_, _, k, _) := r in k.
Definition rule_confidence (r : Rule) : Q := let '(_, _, _, c) := r in c.

Definition CORRELATION_RULES : list Rule :=
  [ ("Memory Leak ↔ Unbounded Queue Config",
     "v2.14.0 unbounded queue + 4x threads → OOM at batchAllocate → 95 MiB/min leak.",
     ["memory"; "oom"; "unbounded"], 0.97%Q);
    ("Slow Queries ↔ Missing Index ↔ Pool Exhaustion",
     "Cancelled index → full table scans 38-45s → 200 connections held → 1847 queued.",
     ["index"; "pool"; "connection"; "slow query"], 0.95%Q);
    ("Traffic Spike × Degraded Capacity = Cascade",
     "3x Flash Sale traffic hit 33% capacity. Raised circuit breaker delayed cutoff.",
     ["traffic"; "capacity"; "circuit"; "cascading"], 0.93%Q);
    ("Stale TLS ↔ Cert Rotation ↔ Canary Failure",
     "Partial cert rotation left canary with expired cert. Cannot connect to DB.",
     ["tls"; "cert"], 0.96%Q) ].

Record Correlation : Type := mkCorrelation {
  c_id : string;
  c_title : string;
  c_description : string;
  c_linked : list string;
  c_confidence : Q
}.

Record Plan : Type := mkPlan {
  plan_hypothesis : string;
  plan_tasks : list (string * string)
}.

Record Task : Type := mkTask {
  task_id : string;
  task_to : string;
  task_objective : string
}.

Record RootCause : Type := mkRootCause {
  rc_rank : Z;
  rc_title : string;
  rc_detail : string;
  rc_confidence : Q;
  rc_category : string
}.

Record TimelineEvent : Type := mkEvent { ev_t : string; ev_e : string }.

Record Remediation : Type := mkRemediation {
  rem_p : string;
  rem_action : string;
  rem_cmd : string;
  rem_risk : string
}.

Record RCA : Type := mkRCA {
  rca_id : string;
  rca_timestamp : string;
  rca_severity : string;
  rca_summary : string;
  rca_root_causes : list RootCause;
  rca_contributing_factors : list string;
  rca_timeline : list TimelineEvent;
  rca_remediation : list Remediation;
  rca_blast_radius : list string
}.

(** The attributes of a [CommanderAgent]; [plan] and [rca] start as the
    empty dictionary, here [None]. *)
Record CommanderAgent : Type := mkCommander {
  alert : gmap string PyVal;
  step : nat;
  severity : string;
  findings : list FindingDict;
  correlations : list Correlation;
  plan : option Plan;
  tasks : list Task;
  rca : option RCA
}.

(** CommanderAgent.__init__ *)
Definition init (a : gmap string PyVal) : CommanderAgent :=
  mkCommander a 0 "P4_LOW" [] [] None [] None.

Definition with_step (n : nat) (c : CommanderAgent) : CommanderAgent :=
  mkCommander (alert c) n (severity c) (findings c) (correlations c) (plan c) (tasks c) (rca c).
Definition with_severity (s : string) (c : CommanderAgent) : CommanderAgent :=
  mkCommander (alert c) (step c) s (findings c) (correlations c) (plan c) (tasks c) (rca c).
Definition with_findings (fs : list FindingDict) (c : CommanderAgent) : CommanderAgent :=
  mkCommander (alert c) (step c) (severity c) fs (correlations c) (plan c) (tasks c) (rca c).
Definition with_correlations (cs : list Correlation) (c : CommanderAgent) : CommanderAgent :=
  mkCommander (alert c) (step c) (severity c) (findings c) cs (plan c) (tasks c) (rca c).
Definition with_plan (p : option Plan) (c : CommanderAgent) : CommanderAgent :=
  mkCommander (alert c) (step c) (severity c) (findings c) (correlations c) p (tasks c) (rca c).
Definition with_tasks (ts : list Task) (c : CommanderAgent) : CommanderAgent :=
  mkCommander (alert c) (step c) (severity c) (findings c) (correlations c) (plan c) ts (rca c).
Definition with_rca (r : option RCA) (c : CommanderAgent) : CommanderAgent :=
  mkCommander (alert c) (step c) (severity c) (findings c) (correlations c) (plan c) (tasks c) r.

(** CommanderAgent._log: bump the step counter (the printing is dropped). *)
Definition _log : Py CommanderAgent unit :=
  modify (fun c => with_step (S (step c)) c).

(** [self.alert[key]] *)
Definition alert_item (key : string) : Py CommanderAgent PyVal :=
  c ← get;
  match alert c !! key with
  | Some v => mret v
  | None => py_raise (KeyError key)
  end.

(** load_json: the parsed document is discarded by its only caller.  A
    file that does not load raises what open() or json.load() raises on
    it. *)
Definition load_json (name : string) : Py CommanderAgent unit :=
  fun ws => if readable (fst ws) name then (Ret tt, ws)
            else (Raise (load_failure (fst ws) name), ws).

Definition the_plan : Plan :=
  mkPlan "payment-service degradation — memory leak, deploy regression, or infra failure"
    [ ("logs_agent", "Find OOM errors, pool exhaustion, stack traces, cascading failures");
      ("metrics_agent", "Analyze memory leak, latency, error rates, DB pool, pod health");
      ("deploy_intel", "Map deployments + infra changes against incident timeline") ].

(** CommanderAgent.triage *)
Definition triage : Py CommanderAgent unit :=
  (* the keyword arguments of the first _log are evaluated before the call *)
  _ ← alert_item "source";
  _ ← alert_item "title";
  _ ← alert_item "severity";
  _log ;;
  sev ← alert_item "severity";
  modify (with_severity (if py_eq_str sev "P1" then "P1_CRITICAL" else "P2_HIGH")) ;;
  _log ;;
  for_each ["application_logs.json"; "infrastructure_metrics.json"; "deployment_history.json"]
    (fun name => load_json name ;; _log) ;;
  modify (with_plan (Some the_plan)) ;;
  _log ;;
  for_each (plan_tasks the_plan)
    (fun '(agent, objective) =>
       u ← uid;
       modify (fun c => with_tasks (tasks c ++ [mkTask ("msg-" +:+ u) agent objective]) c) ;;
       _log).

(** CommanderAgent.collect_findings.  The dictionaries appended are the
    module-level ones, whose ["id"] and ["agent"] the loop assigns in
    place: a later call also shows its identifiers in the entries an
    earlier call appended.  The model gives the entries a call appends;
    it is not to be read for the entries collected by an earlier call. *)
Definition collect_findings : Py CommanderAgent unit :=
  for_each SPECIALIST_FINDINGS
    (fun '(agent, items) =>
       for_each items
         (fun f =>
            u ← uid;
            modify (fun c =>
              with_findings
                (findings c ++
                 [mkFindingDict (si_title f) (si_severity f) (si_confidence f)
                    (si_evidence f) ("find-" +:+ u) agent]) c)) ;;
       _log) ;;
  _log.


Section WithLower.

(** Python's [str.lower]. *)
Variable lower : string -> string.

(** [any(kw in f["title"].lower() for kw in keywords)] *)
Definition matches (keywords : list string) (f : FindingDict) : bool :=
  any (fun kw => str_contains kw (lower (fd_title f))) keywords.

(** [[f["id"] for f in self.findings if any(...)]] *)
Definition linked_ids (keywords : list string) (fs : list FindingDict) : list string :=
  map fd_id (List.filter (matches keywords) fs).

(** The body of the loop over [CORRELATION_RULES]. *)
Definition correlate_rule (r : Rule) : Py CommanderAgent unit :=
  let '(title, desc, keywords, conf) := r in
  c ← get;
  let linked := linked_ids keywords (findings c) in
  if (2 <=? length linked)%nat then
    u ← uid;
    modify (fun c => with_correlations
                       (correlations c ++ [mkCorrelation ("corr-" +:+ u) title desc linked conf]) c) ;;
    _log
  else mret tt.

(** CommanderAgent.correlate, over a given rule table. *)
Definition correlate_with (rules : list Rule) : Py CommanderAgent unit :=
  _log ;;
  for_each rules correlate_rule ;;
  _log.

(** CommanderAgent.correlate *)
Definition correlate : Py CommanderAgent unit := correlate_with CORRELATION_RULES.

End WithLower.

Definition the_root_causes : list RootCause :=
  [ mkRootCause 1 "Unbounded in-memory queue in v2.14.0"
      "kafka_backed→in_memory_unbounded. Threads 200→800. JVM=K8s limit."
      0.97 "deployment_regression";
    mkRootCause 2 "Missing DB index — full table scans"
      "Index rebuild cancelled. 2.8M row scans at 38-45s each."
      0.95 "infrastructure_gap" ].

Definition the_rca (id ts : string) : RCA :=
  mkRCA id ts "P1_CRITICAL"
    ("COMPOUND FAILURE: v2.14.0 unbounded queue + 4x threads → 95 MiB/min leak → " +:+
     "OOM every ~14 min. Compounded by missing DB index, partial TLS cert failure, " +:+
     "3x traffic spike, raised circuit breaker.")
    the_root_causes
    [ "3x traffic from Flash Sale";
      "Partial TLS cert rotation — canary can't reach DB";
      "Circuit breaker raised 50%→70%";
      "JVM heap 4Gi = K8s limit (no GC headroom)";
      "Deadlocks in batch processor" ]
    [ mkEvent "Feb5 10:00" "DB index rebuild cancelled";
      mkEvent "Feb5 16:00" "TLS cert rotation PARTIAL FAILURE";
      mkEvent "Feb5 20:00" "Circuit breaker → 70%";
      mkEvent "Feb5 22:30" "v2.14.0 canary deployed (15%)";
      mkEvent "Feb6 06:00" "Flash Sale push sent";
      mkEvent "Feb6 07:45" "3x traffic spike";
      mkEvent "Feb6 07:48" "First OOMKill";
      mkEvent "Feb6 08:00" "⚠ INCIDENT — 503s at gateway";
      mkEvent "Feb6 08:04" "CrashLoopBackOff";
      mkEvent "Feb6 08:06" "DB pool exhausted";
      mkEvent "Feb6 08:13" "33% capacity, circuit OPEN" ]
    [ mkRemediation "IMMEDIATE" "Rollback to v2.13.2"
        "kubectl rollout undo deployment/payment-service" "LOW";
      mkRemediation "IMMEDIATE" "Rebuild missing DB index"
        "CREATE INDEX CONCURRENTLY idx_transactions_status_created_at ON transactions(status,created_at);" "LOW";
      mkRemediation "IMMEDIATE" "Rotate TLS certs"
        "kubectl rollout restart deployment/payment-service" "LOW";
      mkRemediation "SHORT_TERM" "Circuit breaker → 50%"
        "circuit_breaker.error_threshold_pct=50" "LOW";
      mkRemediation "SHORT_TERM" "K8s memory → 5Gi"
        "kubectl set resources ... --limits=memory=5Gi" "MEDIUM";
      mkRemediation "PREVENTIVE" "Bounded queue for v2.14.0"
        "BlockingQueue(capacity=10000)" "CODE_REVIEW" ]
    [ "payment-service (94%)"; "order-service"; "api-gateway"; "notification-service"; "end users" ].

(** CommanderAgent.build_rca *)
Definition build_rca : Py CommanderAgent unit :=
  _log ;;
  u ← uid;
  t ← now;
  let r := the_rca ("rca-" +:+ u) t in
  modify (with_rca (Some r)) ;;
  _log ;;
  for_each (rca_root_causes r) (fun _ => _log) ;;
  _log ;;
  _log ;;
  for_each (rca_remediation r) (fun _ => _log) ;;
  _log.

(** CommanderAgent.run *)
Definition run (lower : string -> string) : Py CommanderAgent (option RCA) :=
  triage ;;
  collect_findings ;;
  correlate lower ;;
  build_rca ;;
  c ← get;
  mret (rca c).

End Commander.

(** ** allStandaloneAgents/metrics_agent_standalone.py *)

Module Metrics.

Record FindingDict : Type := mkFindingDict {
  fd_id : string;
  fd_agent : string;
  fd_timestamp : string;
  fd_title : string;
  fd_description : string;
  fd_severity : string;
  fd_confidence : Q;
  fd_evidence : list (string * PyVal);
  fd_related_services : list string
}.

(** The attributes of a [MetricsAgent] that [check_latency] reads or
    writes.  [latency] is the list [self.latency] that [ingest_data] takes
    from the metrics file; its entries are any values. *)
Record MetricsAgent : Type := mkAgent {
  findings : list FindingDict;
  step : nat;
  latency : list PyVal
}.

Definition with_findings (fs : list FindingDict) (a : MetricsAgent) : MetricsAgent :=
  mkAgent fs (step a) (latency a).
Definition with_step (n : nat) (a : MetricsAgent) : MetricsAgent :=
  mkAgent (findings a) n (latency a).

(** MetricsAgent._log *)
Definition _log : Py MetricsAgent unit :=
  modify (fun a => with_step (S (step a)) a).

(** MetricsAgent._add_finding *)
Definition _add_finding (title description severity : string) (confidence : Q)
    (evidence : list (string * PyVal)) : Py MetricsAgent unit :=
  u ← uid;
  t ← now;
  let finding :=
    mkFindingDict ("find-" +:+ u) "metrics_agent" t title description severity
      confidence evidence ["payment-service"] in
  modify (fun a => with_findings (findings a ++ [finding]) a) ;;
  _log.

(** [d[key]] on a dictionary with the items [d]. *)
Definition item {St} (d : list (string * PyVal)) (key : string) : Py St PyVal :=
  match dict_get d key with
  | Some v => mret v
  | None => py_raise (KeyError key)
  end.

(** [t[key]] for a string [key]: a KeyError on a dictionary without the
    key, a TypeError on a value that is no dictionary (a number, None, a
    string or a list). *)
Definition subscript {St} (t : PyVal) (key : string) : Py St PyVal :=
  match t with
  | VDict d => item d key
  | _ => py_raise TypeError
  end.

Section WithRuntime.
Variable rt : Runtime.

(** [v > u]: two numbers compare by value; a number against a value
    that is not a number raises TypeError. *)
Definition py_gt {St} (v u : PyVal) : Py St bool :=
  match as_num v, as_num u with
  | Some a, Some b => mret (num_gt a b)
  | Some _, None | None, Some _ => py_raise TypeError
  | None, None => fun ws => (other_gt rt v u, ws)
  end.

(** The loop of [max(t[key] for t in entries)] once it holds a first
    item: each entry is read, then compared, and replaces the running
    maximum only when it is greater. *)
Fixpoint max_loop {St} (key : string) (cur : PyVal) (entries : list PyVal)
    : Py St PyVal :=
  match entries with
  | [] => mret cur
  | t :: entries' =>
      v ← subscript t key;
      b ← py_gt v cur;
      max_loop key (if b : bool then v else cur) entries'
  end.

(** [max(t[key] for t in entries)] on the non-empty [t0 :: rest]. *)
Definition py_max {St} (key : string) (t0 : PyVal) (rest : list PyVal) : Py St PyVal :=
  v0 ← subscript t0 key;
  max_loop key v0 rest.

(** [x / y]: a TypeError unless both are numbers. *)
Definition py_truediv {St} (x y : PyVal) : Py St PyFloat :=
  match as_num x, as_num y with
  | Some a, Some b =>
      match div_error a b with
      | Some e => py_raise e
      | None => mret (quotient rt a b)
      end
  | _, _ => py_raise TypeError
  end.

(** [f"{v}"] *)
Definition str_of {St} (v : PyVal) : Py St string :=
  fun ws => (py_str rt v, ws).

(** MetricsAgent.check_latency *)
Definition check_latency : Py MetricsAgent unit :=
  _log ;;
  a ← get;
  match latency a with
  | [] => _log
  | t0 :: rest =>
      start ← subscript t0 "p99";
      peak ← py_max "p99" t0 rest;
      q ← py_truediv peak start;
      let factor := round1 rt q in
      (* the keyword arguments of _log are formatted before the call *)
      s_start ← str_of start;
      s_peak ← str_of peak;
      let s_factor := float_str rt factor in
      _log ;;
      _add_finding
        ("P99 latency spike: " +:+ s_start +:+ "ms → " +:+ s_peak +:+
         "ms (" +:+ s_factor +:+ "x)")
        ("P99 degraded " +:+ s_factor +:+
         "x. Sawtooth pattern tied to pod restart cycles.")
        "P1_CRITICAL" 0.98
        [("p99_start", start); ("p99_peak", peak); ("factor", float_val factor)]
  end.

End WithRuntime.

(** The ["factor"] entry of a finding's evidence. *)
Definition evidence_factor (f : FindingDict) : option PyVal :=
  dict_get (fd_evidence f) "factor".

(** The value an entry of a series holds under [key], when the entry is
    a dictionary that has the key. *)
Definition reading (key : string) (t : PyVal) : option PyVal :=
  match t with
  | VDict d => dict_get d key
  | _ => None
  end.

(** The text of [v] can be formed. *)
Definition formattable (rt : Runtime) (v : PyVal) : Prop := returned (py_str rt v).

(** A check adds exactly one finding and returns. *)
Definition emits_one_finding {A} (r : Outcome A * (World * MetricsAgent))
    (a : MetricsAgent) : Prop :=
  returned (outcome_of r) ∧ ∃ f, findings (state_of r) = findings a ++ [f].

End Metrics.

(** ** The specification's notions, for comparison with the code *)

Module Spec.
Import Commander.

(** [k] further identifiers drawn. *)
Definition advance_uuid (k : nat) (w : World) : World :=
  mkWorld (uuid_stream w) (uuid_drawn w + k) (clock w) (clock_read w) (readable w)
    (load_failure w).

Section Correlation.
Variable lower : string -> string.

(** A keyword is a case-insensitive substring of a title: it occurs in the
    title once both are brought to lower case. *)
Definition ci_substring (kw title : string) : bool :=
  str_contains (lower kw) (lower title).

(** A rule matches a finding if some keyword of the rule is a
    case-insensitive substring of the finding's title. *)
Definition rule_matches (r : Rule) (f : FindingDict) : bool :=
  any (fun kw => ci_substring kw (fd_title f)) (rule_keywords r).

(** The findings a rule matches, in input order. *)
Definition matched (r : Rule) (fs : list FindingDict) : list FindingDict :=
  List.filter (rule_matches r) fs.

(** The loop of [correlate] as a function of the rules, the findings and
    the identifiers [ids n], [ids (n+1)], ... still to be drawn. *)
Definition fires (r : Rule) (fs : list FindingDict) : bool :=
  (2 <=? length (linked_ids lower (rule_keywords r) fs))%nat.

Definition link_of (r : Rule) (fs : list FindingDict) (id : string) : Correlation :=
  mkCorrelation ("corr-" +:+ id) (rule_title r) (rule_description r)
    (linked_ids lower (rule_keywords r) fs) (rule_confidence r).

Fixpoint links_of (rules : list Rule) (fs : list FindingDict)
    (ids : nat -> string) (n : nat) : list Correlation :=
  match rules with
  | [] => []
  | r :: rules' =>
      if fires r fs then link_of r fs (ids n) :: links_of rules' fs ids (S n)
      else links_of rules' fs ids n
  end.

End Correlation.

(** The keywords of the rule table; [lower] leaves each of them alone
    when they are lower-case already. *)
Definition table_keywords : list string := concat (map rule_keywords CORRELATION_RULES).

Definition fixes_keywords (lower : string -> string) : Prop :=
  Forall (fun kw => lower kw = kw) table_keywords.

(** The links among [ls] that were emitted for rule [r]; the titles of the
    rule table are pairwise distinct. *)
Definition links_for (r : Rule) (ls : list Correlation) : list Correlation :=
  List.filter (fun l => String.eqb (c_title l) (rule_title r)) ls.

(** What [correlate] reads of a finding: its id and its title. *)
Definition id_and_title (f : FindingDict) : string * string := (fd_id f, fd_title f).

(** A link without its random identifier. *)
Definition link_content (l : Correlation) : string * string * list string * Q :=
  (c_title l, c_description l, c_linked l, c_confidence l).

(** What a run of [correlate] appended to [self.correlations]. *)
Definition emitted (before after : list Correlation) : list Correlation :=
  drop (length before) after.

(** Severities, ordered P1_CRITICAL > P2_HIGH > P3_MEDIUM > P4_LOW. *)
Definition Severity_of_value (s : string) : option State.Severity :=
  if String.eqb s "P1_CRITICAL" then Some State.P1_CRITICAL
  else if String.eqb s "P2_HIGH" then Some State.P2_HIGH
  else if String.eqb s "P3_MEDIUM" then Some State.P3_MEDIUM
  else if String.eqb s "P4_LOW" then Some State.P4_LOW
  else None.

Definition severity_level (s : State.Severity) : nat :=
  match s with
  | State.P1_CRITICAL => 4
  | State.P2_HIGH => 3
  | State.P3_MEDIUM => 2
  | State.P4_LOW => 1
  end.

Definition more_severe (a b : State.Severity) : State.Severity :=
  if (severity_level a <? severity_level b)%nat then b else a.

Definition max_severity (l : list State.Severity) : option State.Severity :=
  match l with
  | [] => None
  | x :: xs => Some (fold_left more_severe xs x)
  end.

Definition severities (fs : list FindingDict) : list State.Severity :=
  omap (fun f => Severity_of_value (fd_severity f)) fs.

(** The report [build_rca] leaves in [self.rca]. *)
Definition built_rca (w : World) (c : CommanderAgent) : option RCA :=
  rca (state_of (build_rca (w, c))).

(** The RCA severity is the maximum severity among the findings. *)
Definition severity_is_max (fs : list FindingDict) (r : RCA) : Prop :=
  ∃ m, max_severity (severities fs) = Some m ∧ rca_severity r = State.Severity_value m.

(** Ranks 1, 2, ..., n. *)
Definition ranks_from_one (rcs : list RootCause) : Prop :=
  map rc_rank rcs = map Z.of_nat (seq 1 (length rcs)).

Definition finding_level (f : FindingDict) : nat :=
  match Severity_of_value (fd_severity f) with
  | Some s => severity_level s
  | None => 0
  end.

(** The ranking policy on findings, each paired with its position in the
    finding list (its creation order): severity descending, then
    confidence descending, then earliest created. *)
Definition outranks (x y : nat * FindingDict) : Prop :=
  (finding_level (snd y) < finding_level (snd x))%nat ∨
  (finding_level (snd x) = finding_level (snd y) ∧
   (fd_confidence (snd y) < fd_confidence (snd x))%Q) ∨
  (finding_level (snd x) = finding_level (snd y) ∧
   (fd_confidence (snd x) == fd_confidence (snd y))%Q ∧
   (fst x < fst y)%nat).

(** The root causes are findings of the set, listed by the ranking policy:
    each root cause stands for one finding, whose severity, confidence and
    creation order are its sort key and whose confidence it reports. *)
Definition ranked_by_policy (fs : list FindingDict) (rcs : list RootCause) : Prop :=
  ∃ sel : list (nat * FindingDict),
    Forall (fun x => fs !! fst x = Some (snd x)) sel ∧
    StronglySorted outranks sel ∧
    Forall2 (fun rc x => (rc_confidence rc == fd_confidence (snd x))%Q) rcs sel.

(** Confidences in descending order. *)
Definition confidence_descending (rcs : list RootCause) : Prop :=
  StronglySorted (fun a b => (rc_confidence b <= rc_confidence a)%Q) rcs.

(** The stage operations and the phase each belongs to. *)
Inductive Stage : Type := StageTriage | StageCorrelation | StageRCA.

Definition matching_phase (op : Stage) : State.InvestigationPhase :=
  match op with
  | StageTriage => State.TRIAGE
  | StageCorrelation => State.CORRELATION
  | StageRCA => State.ROOT_CAUSE_ANALYSIS
  end.

Definition run_stage (lower : string -> string) (op : Stage) : Py CommanderAgent unit :=
  match op with
  | StageTriage => triage
  | StageCorrelation => correlate lower
  | StageRCA => build_rca
  end.

(** The states a commander reaches from a new one by its own operations,
    called in any order, whether they return or raise. *)
Inductive reachable (lower : string -> string) : CommanderAgent -> Prop :=
  | reach_init (a : gmap string PyVal) : reachable lower (init a)
  | reach_stage (op : Stage) (w : World) (c : CommanderAgent) :
      reachable lower c -> reachable lower (state_of (run_stage lower op (w, c)))
  | reach_collect (w : World) (c : CommanderAgent) :
      reachable lower c -> reachable lower (state_of (collect_findings (w, c))).

(** Every stage operation run outside its phase fails and leaves the
    state as it was, [phase_of] being the phase the state machine is in. *)
Definition phase_guarded (lower : string -> string)
    (phase_of : CommanderAgent -> State.InvestigationPhase) : Prop :=
  ∀ (w : World) (c : CommanderAgent) (op : Stage),
    phase_of c ≠ matching_phase op →
    (∃ e, outcome_of (run_stage lower op (w, c)) = Raise e) ∧
    state_of (run_stage lower op (w, c)) = c.

(** A confidence within [0,1]. *)
Definition in_unit_interval (q : Q) : Prop := (0 <= q)%Q ∧ (q <= 1)%Q.

(** Triage with an absent severity level settles on P4_LOW. *)
Definition defaults_to_low (w : World) (c : CommanderAgent) : Prop :=
  outcome_of (triage (w, c)) = Ret tt ∧
  severity (state_of (triage (w, c))) = State.Severity_value State.P4_LOW.

(** What [triage] returns or raises, from the alert and the files alone. *)
Definition triage_outcome (w : World) (a : gmap string PyVal) : Outcome unit :=
  match a !! "source", a !! "title", a !! "severity" with
  | None, _, _ => Raise (KeyError "source")
  | Some _, None, _ => Raise (KeyError "title")
  | Some _, Some _, None => Raise (KeyError "severity")
  | Some _, Some _, Some _ =>
      if negb (readable w "application_logs.json")
      then Raise (load_failure w "application_logs.json")
      else if negb (readable w "infrastructure_metrics.json")
      then Raise (load_failure w "infrastructure_metrics.json")
      else if negb (readable w "deployment_history.json")
      then Raise (load_failure w "deployment_history.json")
      else Ret tt
  end.

(** RCA synthesis fails and produces no report. *)
Definition fails_without_report (w : World) (c : CommanderAgent) : Prop :=
  (∃ e, outcome_of (build_rca (w, c)) = Raise e) ∧ built_rca w c = rca c.

(** A submitted finding is rejected: [add_finding] fails and the finding
    set is as before. *)
Definition finding_rejected (w : World) (s : State.SharedState) (f : State.Finding) : Prop :=
  (∃ e, outcome_of (State.add_finding f (w, s)) = Raise e) ∧
  State.findings (state_of (State.add_finding f (w, s))) = State.findings s.

Definition confidences_valid (fs : list State.Finding) : Prop :=
  Forall (fun f => in_unit_interval (State.f_confidence f)) fs.

End Spec.

(** ** Sample worlds and inputs *)

Module Samples.

Definition hex8 (k : nat) : string :=
  if (k <? 10)%nat then "c0ffee0" +:+ pretty k else "c0ffee" +:+ pretty k.
Definition hex8' (k : nat) : string :=
  if (k <? 10)%nat then "decade0" +:+ pretty k else "decade" +:+ pretty k.
Definition iso (k : nat) : string := "2026-02-06T08:05:0" +:+ pretty k +:+ "+00:00".

Definition w0 : World := mkWorld hex8 0 iso 0 (fun _ => true) OSError.
Definition w1 : World := mkWorld hex8' 0 iso 0 (fun _ => true) OSError.

Definition s0 : State.SharedState :=
  State.mkSharedState "inv-00000000" "2026-02-06T08:05:00+00:00"
    State.ALERT_RECEIVED State.P4_LOW ∅ [] [] [] [] [] [] [] None false false.

Definition calls : list State.DispatchCall :=
  [ State.mkDispatchCall State.COMMANDER (State.ToRole State.LOGS_AGENT)
      State.INVESTIGATION_TASK
      [("instruction", VStr "Deep-scan payment-service logs for OOM and connection errors")]
      None;
    State.mkDispatchCall State.COMMANDER (State.ToRole State.METRICS_AGENT)
      State.INVESTIGATION_TASK
      [("instruction", VStr "Analyze memory leak pattern and latency spike in payment-service")]
      None ].

(** A finding whose confidence is 1.5. *)
Definition overconfident : State.Finding :=
  State.mkFinding "find-0badc0de" State.LOGS_AGENT "2026-02-06T08:05:00+00:00"
    "OutOfMemoryError in TransactionProcessor"
    "Heap exhausted at 3891/4096 MiB due to unbounded batch allocation"
    State.P1_CRITICAL [("log_id", VStr "log-0002"); ("heap_used_mb", VInt 3891)]
    ["payment-service"] [] 1.5.

Definition smoke_finding : State.Finding :=
  State.mkFinding "find-0badc0de" State.LOGS_AGENT "2026-02-06T08:05:00+00:00"
    "OutOfMemoryError in TransactionProcessor"
    "Heap exhausted at 3891/4096 MiB due to unbounded batch allocation"
    State.P1_CRITICAL [("log_id", VStr "log-0002"); ("heap_used_mb", VInt 3891)]
    ["payment-service"] [] 0.95.

Definition alert_p1 : gmap string PyVal :=
  list_to_map
    [ ("source", VStr "PagerDuty");
      ("title", VStr "payment-service: P99 latency > 10s, error rate > 80%");
      ("severity", VStr "P1");
      ("affected_service", VStr "payment-service") ].

Definition alert_p3 : gmap string PyVal :=
  list_to_map
    [ ("source", VStr "PagerDuty"); ("title", VStr "checkout: slow"); ("severity", VStr "P3") ].

Definition alert_no_severity : gmap string PyVal :=
  list_to_map [ ("source", VStr "PagerDuty"); ("title", VStr "checkout: slow") ].

Definition commander0 : Commander.CommanderAgent := Commander.init alert_p1.

(** The first rule of the table. *)
Definition memory_rule : Commander.Rule :=
  ("Memory Leak ↔ Unbounded Queue Config",
   "v2.14.0 unbounded queue + 4x threads → OOM at batchAllocate → 95 MiB/min leak.",
   ["memory"; "oom"; "unbounded"], 0.97%Q).

(** The commander once [collect_findings] has run. *)
Definition collected : Commander.CommanderAgent :=
  state_of (Commander.collect_findings (w0, commander0)).

Definition low_finding : Commander.FindingDict :=
  Commander.mkFindingDict "Circuit breaker threshold raised 50%→70%" "P2_HIGH" 0.5
    [("old", VInt 50); ("new", VInt 70)] "find-0badcafe" "deploy_intel".

(** A commander whose only finding is [low_finding]. *)
Definition commander_low : Commander.CommanderAgent :=
  Commander.with_findings [low_finding] commander0.

(** A runtime for the examples: exact quotients, [round(_, 1)] rounding
    half up, no text, and no order on values that are not numbers. *)
Definition exact_div (a b : Z) : Q := (inject_Z a / inject_Z b)%Q.
Definition half_up1 (q : Q) : Q := (Qfloor (q * 10 + 1 / 2) # 10)%Q.
Definition exact_float_div (f g : PyFloat) : PyFloat :=
  match f, g with
  | Finite x, Finite y => Finite (x / y)%Q
  | Finite _, Infinite _ => Finite 0
  | _, _ => NaN
  end.
Definition half_up_round1 (f : PyFloat) : PyFloat :=
  match f with
  | Finite q => Finite (half_up1 q)
  | _ => f
  end.
Definition runtime : Runtime :=
  mkRuntime exact_div inject_Z exact_float_div half_up_round1
    (fun _ => Ret "") (fun _ => "") (fun _ => "") (fun _ _ => Raise TypeError).

(** The same with a limit of 4300 digits on the text of an int, the
    default of CPython from 3.11 on. *)
Definition digit_limited : Runtime :=
  mkRuntime exact_div inject_Z exact_float_div half_up_round1
    (fun v => match v with
              | VInt z => if (10 ^ 4300 <=? Z.abs z)%Z then Raise ValueError else Ret ""
              | _ => Ret ""
              end)
    (fun _ => "") (fun _ => "") (fun _ _ => Raise TypeError).

Definition point (key : string) (v : PyVal) : PyVal :=
  VDict [("timestamp", VStr "2026-02-06T08:05:00Z"); (key, v)].

Definition agent_spike : Metrics.MetricsAgent :=
  Metrics.mkAgent [] 0
    [point "p99" (VInt 1200); point "p99" (VInt 8400); point "p99" (VInt 25000);
     point "p99" (VInt 17300)].
Definition agent_zero_start : Metrics.MetricsAgent :=
  Metrics.mkAgent [] 0 [point "p99" (VInt 0); point "p99" (VInt 25000)].
Definition agent_no_data : Metrics.MetricsAgent := Metrics.mkAgent [] 0 [].

(** A series whose first p99 is 1 and whose peak is 10^400. *)
Definition agent_overflow : Metrics.MetricsAgent :=
  Metrics.mkAgent [] 0 [point "p99" (VInt 1); point "p99" (VInt (10 ^ 400))].

(** A flat series of readings of 5001 digits. *)
Definition agent_huge : Metrics.MetricsAgent :=
  Metrics.mkAgent [] 0 [point "p99" (VInt (10 ^ 5000)); point "p99" (VInt (10 ^ 5000))].

(** A series with a reading that is not a number. *)
Definition agent_text_reading : Metrics.MetricsAgent :=
  Metrics.mkAgent [] 0 [point "p99" (VInt 1200); point "p99" (VStr "n/a")].

(** A world in which the metrics file cannot be loaded. *)
Definition w_no_metrics : World :=
  mkWorld hex8 0 iso 0 (fun name => negb (String.eqb name "infrastructure_metrics.json"))
    OSError.

(** A world whose deployment history opens but is not JSON. *)
Definition w_bad_json : World :=
  mkWorld hex8 0 iso 0 (fun name => negb (String.eqb name "deployment_history.json"))
    JSONDecodeError.

End Samples.

(** ** state.py: serialisation and the calls that change a shared state *)

Module StateOps.
Import State.

Definition MessageType_value (t : MessageType) : string :=
  match t with
  | INVESTIGATION_TASK => "investigation_task"
  | FINDING => "finding"
  | CORRELATION_REQUEST => "correlation_request"
  | STATUS_UPDATE => "status_update"
  | ESCALATION => "escalation"
  | REMEDIATION_ACTION => "remediation_action"
  end.

(** Finding.to_dict *)
Definition Finding_to_dict (f : Finding) : list (string * PyVal) :=
  [ ("id", VStr (f_id f));
    ("agent", VStr (AgentRole_value (f_agent f)));
    ("timestamp", VStr (f_timestamp f));
    ("title", VStr (f_title f));
    ("description", VStr (f_description f));
    ("severity", VStr (Severity_value (f_severity f)));
    ("evidence", VDict (f_evidence f));
    ("related_services", VList (map VStr (f_related_services f)));
    ("related_log_ids", VList (map VStr (f_related_log_ids f)));
    ("confidence", VFloat (f_confidence f)) ].

(** AgentMessage.to_dict: a receiver that is a role is replaced by its
    value, a receiver that is a string is kept. *)
Definition AgentMessage_to_dict (m : AgentMessage) : list (string * PyVal) :=
  [ ("id", VStr (m_id m));
    ("timestamp", VStr (m_timestamp m));
    ("sender", VStr (AgentRole_value (m_sender m)));
    ("receiver", VStr (Receiver_value (m_receiver m)));
    ("msg_type", VStr (MessageType_value (m_msg_type m)));
    ("payload", VDict (m_payload m));
    ("in_reply_to", match m_in_reply_to m with Some p => VStr p | None => VNone end) ].

(** A message is addressed to an agent: its receiver is the agent (or
    the string that is the agent's value) or the string "ALL". *)
Definition addressed_to (agent : AgentRole) (m : AgentMessage) : Prop :=
  Receiver_value (m_receiver m) = AgentRole_value agent ∨
  Receiver_value (m_receiver m) = "ALL".

#[global] Instance addressed_to_dec (agent : AgentRole) (m : AgentMessage) :
  Decision (addressed_to agent m).
Proof. unfold addressed_to. apply _. Defined.

(** A message passes the optional type filter of [inbox]. *)
Definition of_type (msg_type : option MessageType) (m : AgentMessage) : Prop :=
  match msg_type with
  | Some t => m_msg_type m = t
  | None => True
  end.

#[global] Instance of_type_dec (msg_type : option MessageType) (m : AgentMessage) :
  Decision (of_type msg_type m).
Proof. destruct msg_type; cbn [of_type]; apply _. Defined.

(** The calls through which a caller changes a shared state. *)
Inductive Op : Type :=
  | OpAddFinding (f : Finding)
  | OpDispatch (c : DispatchCall)
  | OpBroadcast (sender : AgentRole) (msg_type : MessageType) (payload : list (string * PyVal)).

Definition run_op (o : Op) : Py SharedState unit :=
  match o with
  | OpAddFinding f => add_finding f
  | OpDispatch c => dispatch_call c ;; mret tt
  | OpBroadcast sender msg_type payload => broadcast sender msg_type payload ;; mret tt
  end.

(** The calls one after the other. *)
Definition run_ops (ops : list Op) : Py SharedState unit := for_each ops run_op.

Definition is_add (o : Op) : bool :=
  match o with OpAddFinding _ => true | _ => false end.

(** The findings submitted by a sequence of calls, in order. *)
Definition submitted (ops : list Op) : list Finding :=
  omap (fun o => match o with OpAddFinding f => Some f | _ => None end) ops.

(** Every field but the findings and the ledger is the same. *)
Definition same_but_findings_and_ledger (s s' : SharedState) : Prop :=
  with_findings (findings s) (with_message_ledger (message_ledger s) s') = s.

End StateOps.

(** ** commander_agent.py: what the stages leave behind *)

Module Pipeline.
Import Commander.

(** The data files [triage] loads, in the order it loads them. *)
Definition data_files : list string :=
  ["application_logs.json"; "infrastructure_metrics.json"; "deployment_history.json"].

(** The first data file that fails to load, if any. *)
Definition first_unreadable (w : World) : option string :=
  List.find (fun name => negb (readable w name)) data_files.

(** The severity [triage] assigns for a severity level. *)
Definition triaged_severity (level : PyVal) : string :=
  if py_eq_str level "P1" then "P1_CRITICAL" else "P2_HIGH".

(** The tasks [triage] appends: one per entry of the plan, in the plan's
    order, with identifiers [ids n], [ids (n+1)], ... *)
Definition dispatched_tasks (ids : nat -> string) (n : nat) : list Task :=
  imap (fun i '(agent, objective) => mkTask ("msg-" +:+ ids (i + n)) agent objective)
       (plan_tasks the_plan).

(** The entries of [SPECIALIST_FINDINGS], each with the agent it is
    listed under, in the order [collect_findings] visits them. *)
Definition table_items : list (string * SpecialistItem) :=
  flat_map (fun '(agent, items) => map (pair agent) items) SPECIALIST_FINDINGS.

(** The findings [collect_findings] appends. *)
Definition stamped (ids : nat -> string) (n : nat) : list FindingDict :=
  imap (fun i '(agent, f) =>
          mkFindingDict (si_title f) (si_severity f) (si_confidence f) (si_evidence f)
            ("find-" +:+ ids (i + n)) agent)
       table_items.

(** The findings appended to [before] to give [after]. *)
Definition collected (before after : list FindingDict) : list FindingDict :=
  drop (length before) after.

End Pipeline.

(** ** metrics_agent_standalone.py: error rate, pod health, report *)

Module MetricsChecks.
Import Metrics.

(** The attributes set by [ingest_data] that the two checks read:
    [self.error_rate], a list of any values; [self.pods], a dictionary,
    as its items in order (the names are pairwise distinct), of any
    values; and the two keys read of the dictionary [self.upstream]. *)
Record Telemetry : Type := mkTelemetry {
  error_rate : list PyVal;
  pods : list (string * PyVal);
  upstream_healthy_pct : option PyVal;
  upstream_circuit_state : option PyVal
}.

(** The agent: the attributes above beside those of [Metrics.MetricsAgent]. *)
Definition Agent : Type := Telemetry * MetricsAgent.

(** A method of [Metrics] run on the agent. *)
Definition on_agent {A} (m : Py MetricsAgent A) : Py Agent A :=
  fun ws =>
    match m (fst ws, snd (snd ws)) with
    | (o, (w', a')) => (o, (w', (fst (snd ws), a')))
    end.

(** [d.get(key, "?")] *)
Definition get_or_unknown (v : option PyVal) : PyVal :=
  match v with Some x => x | None => VStr "?" end.

(** Lists and dictionaries cannot be hashed. *)
Definition hashable (v : PyVal) : bool :=
  match v with
  | VList _ | VDict _ => false
  | _ => true
  end.

(** [s in {"CrashLoopBackOff", "OOMKilled"}]: the value is hashed first,
    a TypeError when it cannot be. *)
Definition in_bad_statuses (s : PyVal) : Outcome bool :=
  if hashable s
  then Ret (py_eq_str s "CrashLoopBackOff" || py_eq_str s "OOMKilled")
  else Raise TypeError.

(** [isinstance(info, dict) and info.get("status") in bad_statuses] *)
Definition is_unhealthy (info : PyVal) : Outcome bool :=
  match info with
  | VDict d =>
      in_bad_statuses (match dict_get d "status" with Some s => s | None => VNone end)
  | _ => Ret false
  end.

(** The list comprehension over [self.pods.items()]: the names of the
    unhealthy pods in the order of [self.pods], or the first error of the
    test. *)
Fixpoint scan_pods (ps : list (string * PyVal)) : Outcome (list string) :=
  match ps with
  | [] => Ret []
  | (name, info) :: ps' =>
      match is_unhealthy info with
      | Raise e => Raise e
      | Ret b =>
          match scan_pods ps' with
          | Raise e => Raise e
          | Ret names => Ret (if b then name :: names else names)
          end
      end
  end.

Section WithRuntime.
Variable rt : Runtime.

(** MetricsAgent.check_error_rate *)
Definition check_error_rate : Py Agent unit :=
  on_agent _log ;;
  s ← get;
  match error_rate (fst s) with
  | [] => on_agent _log
  | t0 :: rest =>
      baseline ← subscript t0 "value";
      peak ← py_max rt "value" t0 rest;
      (* the keyword arguments of _log are formatted before the call *)
      s_baseline ← str_of rt baseline;
      s_peak ← str_of rt peak;
      on_agent _log ;;
      on_agent
        (_add_finding
           ("Error rate surged to " +:+ s_peak +:+ "%")
           ("Error rate escalated from " +:+ s_baseline +:+ "% to " +:+
            s_peak +:+ "%. Correlated with OOM + pod failures.")
           "P1_CRITICAL" 0.97
           [("baseline_pct", baseline); ("peak_pct", peak)])
  end.

(** MetricsAgent.check_pod_health *)
Definition check_pod_health : Py Agent unit :=
  on_agent _log ;;
  s ← get;
  unhealthy ← (fun ws => (scan_pods (pods (fst s)), ws));
  match unhealthy with
  | [] => on_agent _log
  | _ :: _ =>
      let capacity := get_or_unknown (upstream_healthy_pct (fst s)) in
      let circuit := get_or_unknown (upstream_circuit_state (fst s)) in
      for_each unhealthy
        (fun pod =>
           info ← item (pods (fst s)) pod;
           _ ← subscript info "status";
           on_agent _log ;;
           (* log formats the restart count it is given *)
           _ ← str_of rt (get_or_unknown (reading "restart_count" info));
           mret tt) ;;
      s_capacity ← str_of rt capacity;
      s_circuit ← str_of rt circuit;
      on_agent
        (_add_finding
           (pretty (length unhealthy) +:+ " pods critical — " +:+ s_capacity +:+
            "% capacity remaining")
           ("Unhealthy: " +:+ list_str rt unhealthy +:+ ". Circuit breaker: " +:+
            s_circuit +:+ ". Surviving pods >88% CPU.")
           "P1_CRITICAL" 0.99
           [("unhealthy_pods", VList (map VStr unhealthy));
            ("healthy_pct", capacity); ("circuit", circuit)])
  end.

End WithRuntime.

(** An entry of the summary of a status message. *)
Record Summary : Type := mkSummary {
  sum_id : string;
  sum_title : string;
  sum_severity : string
}.

(** The message [report] returns. *)
Record StatusUpdate : Type := mkStatus {
  su_id : string;
  su_sender : string;
  su_receiver : string;
  su_type : string;
  su_status : string;
  su_findings_count : nat;
  su_summary : list Summary
}.

(** MetricsAgent.report *)
Definition report : Py MetricsAgent StatusUpdate :=
  u ← uid;
  a ← get;
  let msg :=
    mkStatus ("msg-" +:+ u) "metrics_agent" "commander" "STATUS_UPDATE" "complete"
      (length (findings a))
      (map (fun f => mkSummary (fd_id f) (fd_title f) (fd_severity f)) (findings a)) in
  _log ;;
  mret msg.

(** Some pod is a dictionary whose status cannot be hashed; none is. *)
Definition status_unhashable (ps : list (string * PyVal)) : Prop :=
  ∃ name d s, (name, VDict d) ∈ ps ∧ dict_get d "status" = Some s ∧ hashable s = false.

Definition statuses_hashable (ps : list (string * PyVal)) : Prop :=
  ∀ name d s, (name, VDict d) ∈ ps → dict_get d "status" = Some s → hashable s = true.

(** The texts that [check_pod_health] forms can be formed: those of the
    restart counts, of the gateway's healthy share and of its circuit
    state (["?"] for one that is missing). *)
Definition texts_formattable (rt : Runtime) (t : Telemetry) : Prop :=
  (∀ name d, (name, VDict d) ∈ pods t →
             formattable rt (get_or_unknown (dict_get d "restart_count"))) ∧
  formattable rt (get_or_unknown (upstream_healthy_pct t)) ∧
  formattable rt (get_or_unknown (upstream_circuit_state t)).

(** The pod [name] is a dictionary with one of the two bad statuses. *)
Definition crashed (ps : list (string * PyVal)) (name : string) : Prop :=
  ∃ d x, (name, VDict d) ∈ ps ∧ dict_get d "status" = Some (VStr x) ∧
         (x = "CrashLoopBackOff" ∨ x = "OOMKilled").

End MetricsChecks.

(** ** Sample telemetry *)

Module MetricsSamples.
Import Samples.

(** What [ingest_data] leaves of a metrics file with two crashed pods. *)
Definition telemetry_crash : MetricsChecks.Telemetry :=
  MetricsChecks.mkTelemetry
    [point "value" (VFloat 0.1); point "value" (VFloat 87.3); point "value" (VFloat 42.5)]
    [("pay-pod-9b1e", VDict [("status", VStr "CrashLoopBackOff"); ("restart_count", VInt 7)]);
     ("pay-pod-3c7a", VDict [("status", VStr "Running")]);
     ("pay-pod-5d2f", VDict [("status", VStr "OOMKilled")])]
    (Some (VFloat 33.3)) (Some (VStr "OPEN")).

(** A series with an entry that has no ["value"]. *)
Definition telemetry_no_value : MetricsChecks.Telemetry :=
  MetricsChecks.mkTelemetry
    [point "value" (VFloat 0.1); VDict [("timestamp", VStr "2026-02-06T08:06:00Z")]]
    [] None None.

(** A pod whose status is a list. *)
Definition telemetry_list_status : MetricsChecks.Telemetry :=
  MetricsChecks.mkTelemetry []
    [("pay-pod-9b1e", VDict [("status", VList [VStr "OOMKilled"])])]
    None None.

End MetricsSamples.

(** * Properties *)

(** One step of a sequence of statements. *)
Lemma bind_eq {St A B} (m : Py St A) (f : A -> Py St B) (ws : World * St) :
  (m ≫= f) ws =
  match m ws with
  | (Ret a, ws') => f a ws'
  | (Raise e, ws') => (Raise e, ws')
  end.
Proof. reflexivity. Qed.

(** [needle in hay] holds exactly when [hay] is some text, then [needle],
    then some text. *)
Lemma prefix_spec (n : string) :
  ∀ h : string, String.prefix n h = true ↔ ∃ post, h = n +:+ post.
Proof.
  induction n as [|a n IH]; intros h.
  - split; [intros _; by exists h|by destruct h].
  - destruct h as [|b h]; cbn [String.prefix String.append].
    + split; [done|]. by intros [post Hpost].
    + destruct (Ascii.ascii_dec a b) as [->|Hne].
      * rewrite IH. split; intros [post Hpost]; exists post.
        -- by rewrite Hpost.
        -- by injection Hpost.
      * split; [done|]. intros [post Hpost]. injection Hpost as Hab _. by destruct Hne.
Qed.

Lemma str_contains_spec (n h : string) :
  str_contains n h = true ↔ ∃ pre post, h = pre +:+ n +:+ post.
Proof.
  split.
  - induction h as [|c h IH].
    + cbn [str_contains]. destruct (String.prefix n "") eqn:E; [|done].
      intros _. apply prefix_spec in E as [post Hpost]. by exists "", post.
    + cbn [str_contains]. destruct (String.prefix n (String c h)) eqn:E.
      * intros _. apply prefix_spec in E as [post Hpost]. by exists "", post.
      * intros H. destruct (IH H) as (pre & post & ->). by exists (String c pre), post.
  - intros (pre & post & ->). induction pre as [|c pre IH].
    + change (str_contains n (n +:+ post) = true).
      assert (E : String.prefix n (n +:+ post) = true) by (apply prefix_spec; by exists post).
      destruct (n +:+ post); cbn [str_contains]; by rewrite E.
    + change (str_contains n (String c (pre +:+ n +:+ post)) = true).
      cbn [str_contains].
      destruct (String.prefix n (String c (pre +:+ n +:+ post))); [done|exact IH].
Qed.

(** ** The message ledger and the finding set (state.py) *)

Module StateTheory.
Import State.

Lemma dispatch_call_eq (c : DispatchCall) (w : World) (s : SharedState) :
  dispatch_call c (w, s) =
  (Ret (message_of w c),
   (tick_clock (tick_uuid w),
    with_message_ledger (message_ledger s ++ [message_of w c]) s)).
Proof. reflexivity. Qed.

Lemma message_of_built (w : World) (c : DispatchCall) : built_from c (message_of w c).
Proof. repeat split. Qed.

Lemma dispatch_all_run (calls : list DispatchCall) :
  ∀ (w : World) (s : SharedState),
  ∃ (msgs : list AgentMessage) (w' : World),
    dispatch_all calls (w, s) =
      (Ret msgs, (w', with_message_ledger (message_ledger s ++ msgs) s)) ∧
    Forall2 built_from calls msgs.
Proof.
  induction calls as [|c calls IH]; intros w s.
  - exists [], w. split; [|constructor].
    destruct s; cbn. by rewrite app_nil_r.
  - destruct (IH (tick_clock (tick_uuid w))
                 (with_message_ledger (message_ledger s ++ [message_of w c]) s))
      as (msgs & w' & Hrun & Hbuilt).
    exists (message_of w c :: msgs), w'. split.
    + change (dispatch_all (c :: calls) (w, s))
        with (match dispatch_call c (w, s) with
              | (Ret m, ws') =>
                  match dispatch_all calls ws' with
                  | (Ret ms, ws'') => (Ret (m :: ms), ws'')
                  | (Raise e, ws'') => (Raise e, ws'')
                  end
              | (Raise e, ws') => (Raise e, ws')
              end).
      rewrite dispatch_call_eq, Hrun. cbn. by rewrite <- app_assoc.
    + constructor; [apply message_of_built | exact Hbuilt].
Qed.

(** C2. [N] consecutive [dispatch] calls return normally with messages
    [msgs], one per call and built from that call's sender, receiver, type,
    payload and in_reply_to; afterwards the ledger is the old ledger followed
    by [msgs] in call order, so its length grew by [N], every entry that was
    there is still at its index unchanged, and nothing else in the state
    was touched. *)
Theorem dispatch_all_appends (calls : list DispatchCall) (w : World) (s : SharedState) :
  let r := dispatch_all calls (w, s) in
  ∃ msgs : list AgentMessage,
    outcome_of r = Ret msgs ∧
    Forall2 built_from calls msgs ∧
    message_ledger (state_of r) = message_ledger s ++ msgs ∧
    length (message_ledger (state_of r)) = length (message_ledger s) + length calls ∧
    (∀ (i : nat) (m : AgentMessage),
        message_ledger s !! i = Some m → message_ledger (state_of r) !! i = Some m) ∧
    (∀ (k : nat) (c : DispatchCall),
        calls !! k = Some c →
        ∃ m, msgs !! k = Some m ∧ built_from c m ∧
             message_ledger (state_of r) !! (length (message_ledger s) + k) = Some m) ∧
    same_but_ledger s (state_of r).
Proof.
  destruct (dispatch_all_run calls w s) as (msgs & w' & Hrun & Hbuilt).
  cbn zeta. rewrite Hrun. exists msgs. cbn [outcome_of state_of fst snd].
  assert (Hl : message_ledger (with_message_ledger (message_ledger s ++ msgs) s)
               = message_ledger s ++ msgs) by reflexivity.
  rewrite Hl. repeat split; try done.
  - rewrite length_app. by rewrite (Forall2_length _ _ _ Hbuilt).
  - intros i m Hi. by apply lookup_app_l_Some.
  - intros k c Hk.
    destruct (Forall2_lookup_l _ _ _ _ _ Hbuilt Hk) as (m & Hm & Hb).
    exists m. repeat split; try done || apply Hb.
    by rewrite lookup_app_r, Nat.add_comm, Nat.add_sub by lia.
  - unfold same_but_ledger. by destruct s.
Qed.

Lemma dispatch_all_appends_witness :
  ∃ msgs : list AgentMessage,
    outcome_of (dispatch_all Samples.calls (Samples.w0, Samples.s0)) = Ret msgs ∧
    Forall2 built_from Samples.calls msgs ∧
    length (message_ledger (state_of (dispatch_all Samples.calls (Samples.w0, Samples.s0)))) = 2 ∧
    (∃ m, msgs !! 1 = Some m ∧ m_receiver m = ToRole METRICS_AGENT).
Proof.
  destruct (dispatch_all_appends Samples.calls Samples.w0 Samples.s0)
    as (msgs & Hout & Hbuilt & _ & Hlen & _ & Hcall & _).
  exists msgs. split; [exact Hout|]. split; [exact Hbuilt|]. split; [exact Hlen|].
  destruct (Hcall 1 _ eq_refl) as (m & Hm & Hb & _).
  exists m. split; [exact Hm|]. exact (proj1 (proj2 Hb)).
Defined.

Lemma add_finding_eq (f : Finding) (w : World) (s : SharedState) :
  add_finding f (w, s) = (Ret tt, (w, with_findings (findings s ++ [f]) s)).
Proof. reflexivity. Qed.

(** C7 (as stated, refuted). A finding whose confidence is 1.5 is outside
    [0,1], yet [add_finding] does not reject it: the call returns normally
    and the finding is stored. *)
Lemma add_finding_accepts_overconfident :
  ¬ Spec.in_unit_interval (f_confidence Samples.overconfident) ∧
  ¬ Spec.finding_rejected Samples.w0 Samples.s0 Samples.overconfident ∧
  findings (state_of (add_finding Samples.overconfident (Samples.w0, Samples.s0)))
    = [Samples.overconfident].
Proof.
  split; [|split].
  - intros [_ H]. vm_compute in H. by apply H.
  - intros [[e He] _]. rewrite add_finding_eq in He. discriminate He.
  - reflexivity.
Qed.

(** C7 (amended). [add_finding] accepts every finding: it returns normally,
    leaves the world alone and appends the finding exactly as submitted,
    its confidence neither checked nor clamped; so the stored findings all
    have a confidence in [0,1] exactly when the ones stored before and the
    submitted one have. *)
Theorem add_finding_unconditional (f : Finding) (w : World) (s : SharedState) :
  let r := add_finding f (w, s) in
  outcome_of r = Ret tt ∧
  world_of r = w ∧
  findings (state_of r) = findings s ++ [f] ∧
  (Spec.confidences_valid (findings (state_of r)) ↔
   Spec.confidences_valid (findings s) ∧ Spec.in_unit_interval (f_confidence f)).
Proof.
  cbn zeta. rewrite add_finding_eq. cbn [outcome_of world_of state_of fst snd].
  change (findings (with_findings (findings s ++ [f]) s)) with (findings s ++ [f]).
  split; [done|]. split; [done|]. split; [done|].
  unfold Spec.confidences_valid. rewrite Forall_app, Forall_singleton. done.
Qed.

Lemma add_finding_unconditional_witness :
  Spec.confidences_valid
    (findings (state_of (add_finding Samples.smoke_finding (Samples.w0, Samples.s0)))).
Proof.
  destruct (add_finding_unconditional Samples.smoke_finding Samples.w0 Samples.s0)
    as (_ & _ & _ & H).
  apply H. split.
  - constructor.
  - split; vm_compute; discriminate.
Defined.

Example smoke_test_ledger :
  length (message_ledger (state_of (dispatch_all Samples.calls (Samples.w0, Samples.s0)))) = 2 ∧
  length (inbox LOGS_AGENT (Some INVESTIGATION_TASK)
            (state_of (dispatch_all Samples.calls (Samples.w0, Samples.s0)))) = 1.
Proof. by vm_compute. Qed.

End StateTheory.

(** ** Triage and RCA synthesis (commander_agent.py) *)

Module CommanderTheory.
Import Commander Spec.

Lemma alert_item_some (k : string) (v : PyVal) (w : World) (c : CommanderAgent) :
  alert c !! k = Some v → alert_item k (w, c) = (Ret v, (w, c)).
Proof. intros H. unfold alert_item. rewrite bind_eq. cbn. by rewrite H. Qed.

Lemma alert_item_none (k : string) (w : World) (c : CommanderAgent) :
  alert c !! k = None → alert_item k (w, c) = (Raise (KeyError k), (w, c)).
Proof. intros H. unfold alert_item. rewrite bind_eq. cbn. by rewrite H. Qed.

(** With the three keys present, [triage] has assigned the severity by
    the time it reads the data files. *)
Lemma triage_present (w : World) (c : CommanderAgent) (vs vt v : PyVal) :
  alert c !! "source" = Some vs → alert c !! "title" = Some vt →
  alert c !! "severity" = Some v →
  severity (state_of (triage (w, c)))
    = (if py_eq_str v "P1" then "P1_CRITICAL" else "P2_HIGH") ∧
  outcome_of (triage (w, c)) = triage_outcome w (alert c).
Proof.
  intros Hs Ht Hv. unfold triage_outcome. rewrite Hs, Ht, Hv. unfold triage.
  rewrite bind_eq, (alert_item_some _ _ _ _ Hs).
  rewrite bind_eq, (alert_item_some _ _ _ _ Ht).
  rewrite bind_eq, (alert_item_some _ _ _ _ Hv).
  rewrite bind_eq. cbn [_log modify fst snd].
  rewrite bind_eq, (alert_item_some "severity" v w (with_step (S (step c)) c) Hv).
  generalize (if py_eq_str v "P1" then "P1_CRITICAL" else "P2_HIGH"). intros sv.
  cbv -[readable load_failure].
  destruct (readable w "application_logs.json"); [|done].
  destruct (readable w "infrastructure_metrics.json"); [|done].
  destruct (readable w "deployment_history.json"); done.
Qed.

(** With one of the three keys absent, [triage] raises KeyError at its
    first statement and has changed nothing. *)
Lemma triage_absent (w : World) (c : CommanderAgent) :
  alert c !! "source" = None ∨ alert c !! "title" = None ∨ alert c !! "severity" = None →
  triage (w, c) = (triage_outcome w (alert c), (w, c)) ∧
  ∃ k, triage_outcome w (alert c) = Raise (KeyError k).
Proof.
  intros H. unfold triage_outcome, triage.
  destruct (alert c !! "source") as [vs|] eqn:Hs.
  2:{ rewrite bind_eq, (alert_item_none _ _ _ Hs). eauto. }
  rewrite bind_eq, (alert_item_some _ _ _ _ Hs).
  destruct (alert c !! "title") as [vt|] eqn:Ht.
  2:{ rewrite bind_eq, (alert_item_none _ _ _ Ht). eauto. }
  rewrite bind_eq, (alert_item_some _ _ _ _ Ht).
  destruct (alert c !! "severity") as [v|] eqn:Hv.
  { destruct H as [H|[H|H]]; discriminate H. }
  rewrite bind_eq, (alert_item_none _ _ _ Hv). eauto.
Qed.

Lemma triage_outcome_eq (w : World) (c : CommanderAgent) :
  outcome_of (triage (w, c)) = triage_outcome w (alert c).
Proof.
  destruct (alert c !! "source") as [vs|] eqn:Hs;
    [|by destruct (triage_absent w c) as [-> _]; [left|]].
  destruct (alert c !! "title") as [vt|] eqn:Ht;
    [|by destruct (triage_absent w c) as [-> _]; [right; left|]].
  destruct (alert c !! "severity") as [v|] eqn:Hv;
    [|by destruct (triage_absent w c) as [-> _]; [right; right|]].
  by destruct (triage_present w c vs vt v) as [_ ->].
Qed.

Lemma build_rca_eq (w : World) (c : CommanderAgent) :
  build_rca (w, c) =
  (Ret tt,
   (tick_clock (tick_uuid w),
    with_step (13 + step c)
      (with_rca
         (Some (the_rca ("rca-" +:+ uuid_stream w (uuid_drawn w)) (clock w (clock_read w))))
         c))).
Proof. reflexivity. Qed.

Lemma built_rca_eq (w : World) (c : CommanderAgent) :
  built_rca w c
  = Some (the_rca ("rca-" +:+ uuid_stream w (uuid_drawn w)) (clock w (clock_read w))).
Proof. reflexivity. Qed.




(** [max_severity] returns a member that no member exceeds. *)
Lemma fold_more_severe (xs : list State.Severity) :
  ∀ x : State.Severity,
    (fold_left more_severe xs x = x ∨ fold_left more_severe xs x ∈ xs) ∧
    (severity_level x ≤ severity_level (fold_left more_severe xs x))%nat ∧
    (∀ y, y ∈ xs → (severity_level y ≤ severity_level (fold_left more_severe xs x))%nat).
Proof.
  induction xs as [|a xs IH]; intros x; cbn [fold_left].
  - split; [by left|]. split; [lia|]. intros y Hy. by apply elem_of_nil in Hy.
  - destruct (IH (more_severe x a)) as (Hin & Hle & Hall).
    assert (Hm : (severity_level x ≤ severity_level (more_severe x a))%nat ∧
                 (severity_level a ≤ severity_level (more_severe x a))%nat ∧
                 (more_severe x a = x ∨ more_severe x a = a)).
    { unfold more_severe.
      destruct (severity_level x <? severity_level a)%nat eqn:E.
      - apply Nat.ltb_lt in E. repeat split; [lia|lia|by right].
      - apply Nat.ltb_ge in E. repeat split; [lia|lia|by left]. }
    destruct Hm as (Hx & Ha & Hor). split; [|split].
    + destruct Hin as [Hin|Hin].
      * destruct Hor as [Hor|Hor]; rewrite Hin, Hor; [by left|right; by left].
      * right. by right.
    + lia.
    + intros y Hy. apply elem_of_cons in Hy as [->|Hy]; [lia|by apply Hall].
Qed.

Lemma max_severity_spec (l : list State.Severity) (m : State.Severity) :
  max_severity l = Some m →
  m ∈ l ∧ ∀ y, y ∈ l → (severity_level y ≤ severity_level m)%nat.
Proof.
  destruct l as [|x xs]; [done|]. cbn [max_severity]. intros [= <-].
  destruct (fold_more_severe xs x) as (Hin & Hle & Hall). split.
  - destruct Hin as [->|Hin]; [by left|by right].
  - intros y Hy. apply elem_of_cons in Hy as [->|Hy]; [done|by apply Hall].
Qed.

Lemma Severity_of_value_P1 (s : string) :
  Severity_of_value s = Some State.P1_CRITICAL ↔ s = "P1_CRITICAL".
Proof.
  unfold Severity_of_value. split.
  - destruct (String.eqb s "P1_CRITICAL") eqn:E; [by apply String.eqb_eq in E|].
    by repeat case_match.
  - by intros ->.
Qed.

(** C6 (as stated, refuted). With no findings at all, [build_rca] does not
    fail: it returns normally and leaves a report in [self.rca]. *)
Lemma build_rca_empty_succeeds :
  findings Samples.commander0 = [] ∧
  outcome_of (build_rca (Samples.w0, Samples.commander0)) = Ret tt ∧
  is_Some (built_rca Samples.w0 Samples.commander0) ∧
  ¬ fails_without_report Samples.w0 Samples.commander0.
Proof.
  split; [done|]. split; [done|]. split; [by eexists|].
  intros [[e He] _]. rewrite build_rca_eq in He. discriminate He.
Qed.

(** C6 (amended). For every finding set, the empty one included,
    [build_rca] returns normally and stores the same fixed report, which
    differs between runs only in its identifier and timestamp; the
    findings are neither read nor changed. *)
Theorem build_rca_total (w : World) (c : CommanderAgent) :
  outcome_of (build_rca (w, c)) = Ret tt ∧
  built_rca w c
    = Some (the_rca ("rca-" +:+ uuid_stream w (uuid_drawn w)) (clock w (clock_read w))) ∧
  findings (state_of (build_rca (w, c))) = findings c ∧
  (∀ fs, built_rca w (with_findings fs c) = built_rca w c).
Proof. by rewrite build_rca_eq. Qed.

(** C3 (as stated, refuted). The only finding is P2_HIGH, so the maximum
    severity among the findings is P2_HIGH, but the report says
    P1_CRITICAL. *)
Lemma rca_severity_not_max :
  ∃ r, built_rca Samples.w0 Samples.commander_low = Some r ∧
       findings Samples.commander_low = [Samples.low_finding] ∧
       max_severity (severities (findings Samples.commander_low)) = Some State.P2_HIGH ∧
       rca_severity r = "P1_CRITICAL" ∧
       ¬ severity_is_max (findings Samples.commander_low) r.
Proof.
  eexists. split; [apply built_rca_eq|]. split; [done|]. split; [done|]. split; [done|].
  intros (m & Hm & Hsev). vm_compute in Hm. injection Hm as <-. discriminate Hsev.
Qed.

(** C3 (amended). The severity of the report is P1_CRITICAL whatever the
    findings are, so it is the same for every reordering of them (and for
    every other finding set); it is the maximum severity among the
    findings exactly when some finding is P1_CRITICAL. *)
Theorem rca_severity_fixed (w : World) (c : CommanderAgent) :
  ∃ r, built_rca w c = Some r ∧
       rca_severity r = State.Severity_value State.P1_CRITICAL ∧
       (∀ w' c', ∃ r', built_rca w' c' = Some r' ∧ rca_severity r' = rca_severity r) ∧
       (severity_is_max (findings c) r ↔
        ∃ f, f ∈ findings c ∧ fd_severity f = "P1_CRITICAL").
Proof.
  eexists. split; [apply built_rca_eq|]. split; [done|]. split.
  { intros w' c'. eexists. split; [apply built_rca_eq|done]. }
  cbn [rca_severity the_rca]. split.
  - intros (m & Hm & Hsev).
    assert (m = State.P1_CRITICAL) as -> by (by destruct m).
    apply max_severity_spec in Hm as [Hin _].
    apply list_elem_of_omap in Hin as (f & Hf & Hp).
    exists f. split; [done|]. by apply Severity_of_value_P1.
  - intros (f & Hf & Hp).
    assert (Hin : State.P1_CRITICAL ∈ severities (findings c)).
    { apply list_elem_of_omap. exists f. split; [done|]. by apply Severity_of_value_P1. }
    destruct (max_severity (severities (findings c))) as [m|] eqn:Hm.
    + exists m. split; [done|].
      apply max_severity_spec in Hm as [_ Hall]. specialize (Hall _ Hin).
      by destruct m; cbn in Hall; try lia.
    + destruct (severities (findings c)); [by apply elem_of_nil in Hin|done].
Qed.

(** C4 (as stated, refuted). The only finding has confidence 0.5; the
    report nevertheless lists two root causes, with confidences 0.97 and
    0.95: they are not findings of the set listed by the ranking policy. *)
Lemma root_causes_not_ranked_findings :
  ∃ r, built_rca Samples.w0 Samples.commander_low = Some r ∧
       findings Samples.commander_low = [Samples.low_finding] ∧
       map rc_confidence (rca_root_causes r) = [0.97%Q; 0.95%Q] ∧
       ¬ (ranks_from_one (rca_root_causes r) ∧
          ranked_by_policy (findings Samples.commander_low) (rca_root_causes r)).
Proof.
  eexists. split; [apply built_rca_eq|]. split; [done|]. split; [done|].
  intros [_ (sel & Hsel & _ & Hconf)].
  cbn [rca_root_causes the_rca the_root_causes] in Hconf.
  apply Forall2_cons_inv_l in Hconf as (x & sel' & Hq & _ & ->).
  apply Forall_cons in Hsel as [Hx _].
  change (findings Samples.commander_low) with [Samples.low_finding] in Hx.
  destruct x as [i f]. cbn [fst snd] in *.
  destruct i as [|i]; cbn in Hx; [|by destruct i].
  injection Hx as <-. vm_compute in Hq. discriminate Hq.
Qed.

(** C4 (amended). For every finding set the root causes are the same fixed
    two entries: their ranks are 1, 2 (contiguous from 1, without gap or
    duplicate) and their confidences, 0.97 and 0.95, are in descending
    order; they are not computed from the findings. *)
Theorem root_causes_fixed (w : World) (c : CommanderAgent) :
  ∃ r, built_rca w c = Some r ∧
       rca_root_causes r = the_root_causes ∧
       ranks_from_one (rca_root_causes r) ∧
       NoDup (map rc_rank (rca_root_causes r)) ∧
       confidence_descending (rca_root_causes r) ∧
       map rc_confidence (rca_root_causes r) = [0.97%Q; 0.95%Q].
Proof.
  eexists. split; [apply built_rca_eq|]. split; [done|]. split; [done|].
  cbn [rca_root_causes the_rca the_root_causes map rc_rank]. split.
  - apply NoDup_cons. split; [|apply NoDup_singleton].
    intros H. by apply list_elem_of_singleton in H.
  - split; [|done]. unfold confidence_descending.
    repeat constructor. by vm_compute.
Qed.

(** *** The correlation loop *)

Section Correlate.
Variable lower : string -> string.

Lemma correlate_rule_eq (r : Rule) (w : World) (c : CommanderAgent) :
  correlate_rule lower r (w, c) =
  if fires lower r (findings c)
  then (Ret tt,
        (tick_uuid w,
         with_step (S (step c))
           (with_correlations
              (correlations c ++ [link_of lower r (findings c) (uuid_stream w (uuid_drawn w))])
              c)))
  else (Ret tt, (w, c)).
Proof.
  destruct r as [[[title desc] keywords] conf].
  unfold correlate_rule, fires. rewrite bind_eq. cbn [get fst snd rule_keywords].
  by destruct (2 <=? length (linked_ids lower keywords (findings c)))%nat.
Qed.

Lemma advance_uuid_0 (w : World) : advance_uuid 0 w = w.
Proof. destruct w. unfold advance_uuid. cbn. by rewrite Nat.add_0_r. Qed.

Lemma advance_uuid_S (k : nat) (w : World) :
  advance_uuid k (tick_uuid w) = advance_uuid (S k) w.
Proof. unfold advance_uuid, tick_uuid. cbn. by rewrite Nat.add_succ_r. Qed.

(** The loop over the rules appends [links_of] and draws one identifier
    per link. *)
Lemma for_each_rules_eq (rules : list Rule) :
  ∀ (w : World) (c : CommanderAgent),
    let links := links_of lower rules (findings c) (uuid_stream w) (uuid_drawn w) in
    for_each rules (correlate_rule lower) (w, c) =
    (Ret tt,
     (advance_uuid (length links) w,
      with_step (length links + step c) (with_correlations (correlations c ++ links) c))).
Proof.
  induction rules as [|r rules IH]; intros w c; cbn zeta.
  - cbn. rewrite advance_uuid_0, app_nil_r. by destruct c.
  - cbn [for_each links_of]. rewrite bind_eq, correlate_rule_eq.
    destruct (fires lower r (findings c)).
    + rewrite IH. cbn [length]. rewrite advance_uuid_S.
      cbn [findings correlations step with_step with_correlations tick_uuid
           uuid_stream uuid_drawn].
      rewrite <- app_assoc, Nat.add_succ_r. reflexivity.
    + by rewrite IH.
Qed.

Lemma correlate_with_eq (rules : list Rule) (w : World) (c : CommanderAgent) :
  let links := links_of lower rules (findings c) (uuid_stream w) (uuid_drawn w) in
  correlate_with lower rules (w, c) =
  (Ret tt,
   (advance_uuid (length links) w,
    with_step (S (length links + S (step c)))
      (with_correlations (correlations c ++ links) c))).
Proof.
  cbn zeta. unfold correlate_with. rewrite bind_eq. cbn [_log modify fst snd].
  rewrite bind_eq, for_each_rules_eq. reflexivity.
Qed.

Lemma emitted_eq (rules : list Rule) (w : World) (c : CommanderAgent) :
  emitted (correlations c) (correlations (state_of (correlate_with lower rules (w, c))))
  = links_of lower rules (findings c) (uuid_stream w) (uuid_drawn w).
Proof. rewrite correlate_with_eq. unfold emitted. cbn. apply drop_app_length. Qed.

(** No link carries the title of a rule that is not in the table. *)
Lemma links_for_absent (rule : Rule) (rules : list Rule) (fs : list FindingDict)
    (ids : nat -> string) :
  rule_title rule ∉ map rule_title rules →
  ∀ n, links_for rule (links_of lower rules fs ids n) = [].
Proof.
  induction rules as [|r rules IH]; intros Hnotin n; [done|].
  cbn [map] in Hnotin. apply not_elem_of_cons in Hnotin as [Hne Hnotin].
  cbn [links_of]. destruct (fires lower r fs); [|by apply IH].
  unfold links_for. cbn [List.filter link_of c_title].
  destruct (String.eqb (rule_title r) (rule_title rule)) eqn:E.
  - apply String.eqb_eq in E. congruence.
  - by apply IH.
Qed.

(** With pairwise distinct titles, the links emitted for a rule of the
    table are one link if the rule fires and none otherwise. *)
Lemma links_for_member (rule : Rule) (rules : list Rule) (fs : list FindingDict)
    (ids : nat -> string) :
  NoDup (map rule_title rules) → rule ∈ rules →
  ∀ n, ∃ k, links_for rule (links_of lower rules fs ids n) =
            if fires lower rule fs then [link_of lower rule fs (ids k)] else [].
Proof.
  induction rules as [|r rules IH]; intros Hnd Hin n.
  { by apply elem_of_nil in Hin. }
  cbn [map] in Hnd. apply NoDup_cons in Hnd as [Hnotin Hnd].
  apply elem_of_cons in Hin as [->|Hin].
  - cbn [links_of]. destruct (fires lower r fs).
    + exists n. unfold links_for. cbn [List.filter link_of c_title].
      rewrite String.eqb_refl. f_equal. by apply links_for_absent.
    + exists n. by apply links_for_absent.
  - assert (Hne : rule_title r ≠ rule_title rule).
    { intros Heq. apply Hnotin. rewrite Heq.
      apply list_elem_of_In, in_map, list_elem_of_In, Hin. }
    cbn [links_of]. destruct (fires lower r fs) eqn:Hr.
    + destruct (IH Hnd Hin (S n)) as [k Hk]. exists k.
      unfold links_for. cbn [List.filter link_of c_title].
      apply String.eqb_neq in Hne. rewrite Hne. exact Hk.
    + by apply IH.
Qed.

(** For keywords that [lower] leaves alone, the test of the code is the
    case-insensitive one. *)
Lemma matches_rule_matches (r : Rule) (f : FindingDict) :
  Forall (fun kw => lower kw = kw) (rule_keywords r) →
  matches lower (rule_keywords r) f = rule_matches lower r f.
Proof.
  unfold matches, rule_matches, any, ci_substring.
  induction 1 as [|kw kws Hkw _ IH]; [done|].
  cbn [existsb]. by rewrite Hkw, IH.
Qed.

Lemma linked_ids_matched (r : Rule) (fs : list FindingDict) :
  Forall (fun kw => lower kw = kw) (rule_keywords r) →
  linked_ids lower (rule_keywords r) fs = map fd_id (matched lower r fs).
Proof.
  intros H. unfold linked_ids, matched. f_equal.
  apply List.filter_ext. intros f. by apply matches_rule_matches.
Qed.

End Correlate.

Lemma rule_titles_distinct : NoDup (map rule_title CORRELATION_RULES).
Proof.
  by apply (bool_decide_unpack _); vm_compute.
Qed.

Lemma table_rule_keywords (lower : string -> string) (rule : Rule) :
  fixes_keywords lower → rule ∈ CORRELATION_RULES →
  Forall (fun kw => lower kw = kw) (rule_keywords rule).
Proof.
  unfold fixes_keywords, table_keywords. intros Hfix Hin.
  rewrite Forall_forall in Hfix |- *. intros kw Hkw. apply Hfix.
  apply list_elem_of_In, in_concat. exists (rule_keywords rule). split.
  - apply in_map. by apply list_elem_of_In.
  - by apply list_elem_of_In.
Qed.

(** C1. [correlate] returns normally, and what it appends to
    [self.correlations] contains, for every rule of the table: a link for
    the rule if and only if at least 2 findings match it, a finding
    matching when some keyword of the rule is a case-insensitive substring
    of its title; in that case exactly one link, whose linked ids are the
    ids of the matched findings in input order and whose confidence is the
    rule's prior confidence; and no link when exactly 1 finding matches.
    The keywords of the table are lower-case: [lower] leaves them alone. *)
Theorem correlate_links_per_rule (lower : string -> string)
    (Hlower : fixes_keywords lower) (w : World) (c : CommanderAgent) :
  let r := correlate lower (w, c) in
  let new := emitted (correlations c) (correlations (state_of r)) in
  outcome_of r = Ret tt ∧
  correlations (state_of r) = correlations c ++ new ∧
  ∀ rule, rule ∈ CORRELATION_RULES →
    let hits := matched lower rule (findings c) in
    (links_for rule new ≠ [] ↔ (2 ≤ length hits)%nat) ∧
    ((2 ≤ length hits)%nat →
       ∃ l, links_for rule new = [l] ∧
            c_linked l = map fd_id hits ∧
            c_confidence l = rule_confidence rule ∧
            c_title l = rule_title rule ∧
            c_description l = rule_description rule) ∧
    (length hits = 1 → links_for rule new = []).
Proof.
  cbn zeta. unfold correlate. rewrite emitted_eq.
  split; [by rewrite correlate_with_eq|]. split; [by rewrite correlate_with_eq|].
  intros rule Hin.
  destruct (links_for_member lower rule CORRELATION_RULES (findings c)
              (uuid_stream w) rule_titles_distinct Hin (uuid_drawn w)) as [k Hk].
  rewrite Hk. unfold fires.
  rewrite (linked_ids_matched lower rule (findings c)
             (table_rule_keywords lower rule Hlower Hin)).
  rewrite length_map.
  destruct (2 <=? length (matched lower rule (findings c)))%nat eqn:E.
  - apply Nat.leb_le in E. split; [done|]. split; [|lia].
    intros _. eexists. split; [done|]. cbn [link_of c_linked c_confidence c_title c_description].
    by rewrite (linked_ids_matched lower rule (findings c)
                  (table_rule_keywords lower rule Hlower Hin)).
  - apply Nat.leb_gt in E. split; [|split; [lia|done]].
    split; [done|lia].
Qed.

Lemma ascii_lower_fixes_keywords : fixes_keywords ascii_lower.
Proof. unfold fixes_keywords. by apply (bool_decide_unpack _); vm_compute. Qed.

Lemma correlate_links_per_rule_witness :
  fixes_keywords ascii_lower ∧
  Samples.memory_rule ∈ CORRELATION_RULES ∧
  length (matched ascii_lower Samples.memory_rule (findings Samples.collected)) = 3 ∧
  ∃ l, links_for Samples.memory_rule
         (emitted (correlations Samples.collected)
            (correlations (state_of (correlate ascii_lower (Samples.w0, Samples.collected)))))
       = [l] ∧
       c_linked l = map fd_id (matched ascii_lower Samples.memory_rule (findings Samples.collected)) ∧
       c_confidence l = 0.97%Q.
Proof.
  split; [exact ascii_lower_fixes_keywords|].
  assert (Hin : Samples.memory_rule ∈ CORRELATION_RULES) by (vm_compute; constructor).
  split; [exact Hin|]. split; [vm_compute; reflexivity|].
  destruct (correlate_links_per_rule ascii_lower ascii_lower_fixes_keywords
              Samples.w0 Samples.collected) as (_ & _ & H).
  destruct (H Samples.memory_rule Hin) as (_ & Hfire & _).
  assert (Hhits : (2 ≤ length (matched ascii_lower Samples.memory_rule
                                 (findings Samples.collected)))%nat)
    by (vm_compute; lia).
  destruct (Hfire Hhits) as (l & Hl & Hlinked & Hconf & _).
  exists l. split; [exact Hl|]. split; [exact Hlinked|exact Hconf].
Defined.

(** *** Determinism of the correlation *)

Lemma linked_ids_reads_id_and_title (lower : string -> string) (keywords : list string) :
  ∀ fs fs' : list FindingDict,
    map id_and_title fs = map id_and_title fs' →
    linked_ids lower keywords fs = linked_ids lower keywords fs'.
Proof.
  unfold linked_ids.
  induction fs as [|f fs IH]; intros [|f' fs'] H; try done.
  cbn [map] in H. injection H as Hid Htitle Hrest.
  specialize (IH fs' Hrest). cbn [List.filter].
  assert (Hm : matches lower keywords f = matches lower keywords f')
    by (unfold matches; by rewrite Htitle).
  rewrite Hm. destruct (matches lower keywords f'); [|exact IH].
  cbn [map]. by rewrite Hid, IH.
Qed.

Lemma links_of_reads_id_and_title (lower : string -> string) (rules : list Rule)
    (fs fs' : list FindingDict) (ids : nat -> string) :
  map id_and_title fs = map id_and_title fs' →
  ∀ n, links_of lower rules fs ids n = links_of lower rules fs' ids n.
Proof.
  intros H. induction rules as [|r rules IH]; intros n; [done|].
  cbn [links_of]. unfold fires, link_of.
  rewrite (linked_ids_reads_id_and_title lower (rule_keywords r) fs fs' H).
  destruct (2 <=? _)%nat; by rewrite ?IH.
Qed.

Lemma links_of_content (lower : string -> string) (rules : list Rule)
    (fs : list FindingDict) (ids ids' : nat -> string) :
  ∀ n n', map link_content (links_of lower rules fs ids n)
          = map link_content (links_of lower rules fs ids' n').
Proof.
  induction rules as [|r rules IH]; intros n n'; [done|].
  cbn [links_of]. destruct (fires lower r fs); [|apply IH].
  cbn [map]. f_equal. apply IH.
Qed.

Lemma links_of_ids (lower : string -> string) (rules : list Rule)
    (fs : list FindingDict) (ids : nat -> string) :
  ∀ n, map c_id (links_of lower rules fs ids n)
       = map (fun j => "corr-" +:+ ids (n + j))
             (seq 0 (length (links_of lower rules fs ids n))).
Proof.
  induction rules as [|r rules IH]; intros n; [done|].
  cbn [links_of]. destruct (fires lower r fs); [|apply IH].
  cbn [map length seq link_of c_id]. rewrite Nat.add_0_r. f_equal.
  rewrite IH, <- seq_shift, map_map. apply map_ext. intros j.
  by rewrite Nat.add_succ_r.
Qed.

Lemma links_of_same_ids (lower : string -> string) (rules : list Rule)
    (fs : list FindingDict) (ids ids' : nat -> string) :
  ∀ n n', (∀ j, ids (n + j) = ids' (n' + j)) →
          links_of lower rules fs ids n = links_of lower rules fs ids' n'.
Proof.
  induction rules as [|r rules IH]; intros n n' Hids; [done|].
  cbn [links_of]. destruct (fires lower r fs); [|by apply IH].
  f_equal.
  - specialize (Hids 0). rewrite !Nat.add_0_r in Hids. by rewrite Hids.
  - apply IH. intros j. specialize (Hids (S j)). by rewrite !Nat.add_succ_r in Hids.
Qed.

(** C9 (as stated, refuted). Two runs of [correlate], one after the other,
    on the same findings and the same rule table: the second draws other
    identifiers from [uuid4], so the links it returns are not the links of
    the first, field for field. *)
Lemma correlate_ids_differ :
  let r1 := correlate ascii_lower (Samples.w0, Samples.collected) in
  let r2 := correlate ascii_lower (world_of r1, Samples.collected) in
  emitted (correlations Samples.collected) (correlations (state_of r1)) ≠
  emitted (correlations Samples.collected) (correlations (state_of r2)).
Proof.
  intros r1 r2 H. apply (f_equal (map c_id)) in H. vm_compute in H. discriminate H.
Qed.

(** C9 (amended). Two runs of [correlate] on findings with the same ids
    and titles, and the same rule table, yield links that agree in number,
    order, title, description, linked ids and confidence.  The identifier
    of the link at position j is "corr-" followed by the j-th value that
    the run draws from [uuid4]; the links of the two runs are the same field
    for field when the two runs draw the same values. *)
Theorem correlate_deterministic_but_id (lower : string -> string)
    (w1 w2 : World) (c1 c2 : CommanderAgent)
    (Hsame : map id_and_title (findings c1) = map id_and_title (findings c2)) :
  let new1 := emitted (correlations c1) (correlations (state_of (correlate lower (w1, c1)))) in
  let new2 := emitted (correlations c2) (correlations (state_of (correlate lower (w2, c2)))) in
  map link_content new1 = map link_content new2 ∧
  length new1 = length new2 ∧
  map c_id new1 = map (fun j => "corr-" +:+ uuid_stream w1 (uuid_drawn w1 + j))
                      (seq 0 (length new1)) ∧
  map c_id new2 = map (fun j => "corr-" +:+ uuid_stream w2 (uuid_drawn w2 + j))
                      (seq 0 (length new2)) ∧
  ((∀ j, uuid_stream w1 (uuid_drawn w1 + j) = uuid_stream w2 (uuid_drawn w2 + j)) →
   new1 = new2).
Proof.
  cbn zeta. unfold correlate. rewrite !emitted_eq.
  rewrite (links_of_reads_id_and_title lower CORRELATION_RULES _ _ (uuid_stream w1) Hsame).
  assert (Hc := links_of_content lower CORRELATION_RULES (findings c2)
                  (uuid_stream w1) (uuid_stream w2) (uuid_drawn w1) (uuid_drawn w2)).
  split; [exact Hc|]. split.
  { apply (f_equal length) in Hc. by rewrite !length_map in Hc. }
  split; [apply links_of_ids|]. split; [apply links_of_ids|].
  apply links_of_same_ids.
Qed.

Lemma correlate_deterministic_but_id_witness :
  let new1 := emitted (correlations Samples.collected)
                (correlations (state_of (correlate ascii_lower (Samples.w0, Samples.collected)))) in
  let new2 := emitted (correlations Samples.collected)
                (correlations (state_of (correlate ascii_lower (Samples.w1, Samples.collected)))) in
  map link_content new1 = map link_content new2 ∧ length new1 = 4.
Proof.
  destruct (correlate_deterministic_but_id ascii_lower Samples.w0 Samples.w1
              Samples.collected Samples.collected eq_refl) as (H & _).
  split; [exact H|]. vm_compute. reflexivity.
Defined.

(** *** No phase guard *)

Lemma correlate_returns (lower : string -> string) (w : World) (c : CommanderAgent) :
  outcome_of (run_stage lower StageCorrelation (w, c)) = Ret tt.
Proof. cbn [run_stage]. unfold correlate. by rewrite correlate_with_eq. Qed.

Lemma build_rca_returns (w : World) (c : CommanderAgent) :
  outcome_of (run_stage ascii_lower StageRCA (w, c)) = Ret tt.
Proof. cbn [run_stage]. by rewrite build_rca_eq. Qed.




(** *** The model run on the module's own data *)

Example contains_oom :
  str_contains "oom" (ascii_lower "Memory leak confirmed — OOM every ~14 min") = true.
Proof. reflexivity. Qed.

Example pool_title_not_memory :
  matches ascii_lower ["memory"; "oom"; "unbounded"]
    (mkFindingDict "DB connection pool fully exhausted" "P1_CRITICAL" 0.95 [] "find-00000001"
       "logs_agent") = false.
Proof. reflexivity. Qed.

Example collected_sixteen : length (findings Samples.collected) = 16.
Proof. reflexivity. Qed.

Example correlate_collected_links :
  map c_linked
    (correlations (state_of (correlate ascii_lower (Samples.w0, Samples.collected))))
  = [ ["find-c0ffee00"; "find-c0ffee06"; "find-c0ffee11"];
      ["find-c0ffee01"; "find-c0ffee03"; "find-c0ffee05"; "find-c0ffee09"; "find-c0ffee15"];
      ["find-c0ffee02"; "find-c0ffee10"; "find-c0ffee12"; "find-c0ffee14"];
      ["find-c0ffee03"; "find-c0ffee13"] ].
Proof. by vm_compute. Qed.

Example run_steps :
  outcome_of (run ascii_lower (Samples.w0, Samples.commander0))
    = Ret (built_rca (mkWorld Samples.hex8 23 Samples.iso 0 (fun _ => true) OSError)
             Samples.commander0) ∧
  step (state_of (run ascii_lower (Samples.w0, Samples.commander0))) = 32.
Proof. by vm_compute. Qed.

End CommanderTheory.

(** ** The latency check (metrics_agent_standalone.py) *)

Module MetricsTheory.
Import Metrics.

(** *** The order of numbers *)

Lemma Qlt_negb_le (x y : Q) : negb (Qle_bool y x) = true ↔ (x < y)%Q.
Proof.
  rewrite negb_true_iff. split.
  - intros H. apply Qnot_le_lt. intros Hle. apply Qle_bool_iff in Hle. congruence.
  - intros H. destruct (Qle_bool y x) eqn:E; [|done].
    apply Qle_bool_iff in E. exfalso. by apply (Qlt_not_le x y).
Qed.

Lemma ext_ltb_irrefl (x : Ext) : ext_ltb x x = false.
Proof.
  destruct x as [|q|]; cbn; [done| |done].
  apply negb_false_iff, Qle_bool_iff, Qle_refl.
Qed.

Lemma ext_ltb_trans (x y z : Ext) :
  ext_ltb x y = true → ext_ltb y z = true → ext_ltb x z = true.
Proof.
  destruct x as [|x|], y as [|y|], z as [|z|]; cbn; try done.
  rewrite !Qlt_negb_le. apply Qlt_trans.
Qed.

Lemma num_gt_irrefl (n : PyNum) : num_gt n n = false.
Proof. unfold num_gt. destruct (ext_of n); [apply ext_ltb_irrefl|done]. Qed.

(** A value that replaces the running maximum is exceeded by nothing the
    maximum was not exceeded by. *)
Lemma num_gt_replace (y c z : PyNum) :
  num_gt y c = true → num_gt z c = false → num_gt z y = false.
Proof.
  unfold num_gt.
  destruct (ext_of y) as [ey|], (ext_of c) as [ec|], (ext_of z) as [ez|]; try done.
  intros Hcy Hcz. destruct (ext_ltb ey ez) eqn:E; [|done].
  by rewrite (ext_ltb_trans _ _ _ Hcy E) in Hcz.
Qed.

Lemma div_error_zero (a b : PyNum) :
  num_is_zero b = true →
  div_error a b = Some ZeroDivisionError ∨ div_error a b = Some OverflowError.
Proof.
  destruct a as [x|f], b as [y|g]; cbn [num_is_zero div_error]; intros ->.
  - by left.
  - destruct (int_too_large x); [by right|by left].
  - destruct (int_too_large y); [by right|by left].
  - by left.
Qed.

(** *** Reading and comparing leave world and state alone *)

Lemma subscript_reading {St} (key : string) (t v : PyVal) (ws : World * St) :
  reading key t = Some v → subscript t key ws = (Ret v, ws).
Proof.
  destruct t; try done. cbn [reading subscript]. unfold item. by intros ->.
Qed.

Lemma subscript_no_reading {St} (key : string) (t : PyVal) (ws : World * St) :
  reading key t = None →
  subscript t key ws
  = (Raise (match t with VDict _ => KeyError key | _ => TypeError end), ws).
Proof.
  destruct t; try done. cbn [reading subscript]. unfold item. by intros ->.
Qed.

Section WithRuntime.
Variable rt : Runtime.

Lemma py_gt_state {St} (v u : PyVal) (ws : World * St) :
  snd (py_gt rt v u ws) = ws.
Proof. unfold py_gt. by destruct (as_num v), (as_num u). Qed.

Lemma py_gt_numbers {St} (v u : PyVal) (a b : PyNum) (ws : World * St) :
  as_num v = Some a → as_num u = Some b → py_gt rt v u ws = (Ret (num_gt a b), ws).
Proof. unfold py_gt. by intros -> ->. Qed.

(** On entries that hold numbers, the loop of [max] returns one of them
    (or the value it started from) that none of them exceeds. *)
Lemma max_loop_numbers {St} (key : string) (entries : list PyVal) :
  ∀ (vs : list PyVal) (ns seen : list PyNum) (cur : PyVal) (m : PyNum) (ws : World * St),
    Forall2 (fun t v => reading key t = Some v) entries vs →
    Forall2 (fun v n => as_num v = Some n) vs ns →
    as_num cur = Some m →
    (∀ n, n ∈ seen → num_gt n m = false) →
    ∃ peak pk, max_loop rt key cur entries ws = (Ret peak, ws) ∧
               (peak = cur ∨ peak ∈ vs) ∧ as_num peak = Some pk ∧
               (∀ n, n ∈ seen ++ ns → num_gt n pk = false).
Proof.
  induction entries as [|t entries IH]; intros vs ns seen cur m ws Hvs Hns Hcur Hseen.
  - apply Forall2_nil_inv_l in Hvs as ->. apply Forall2_nil_inv_l in Hns as ->.
    exists cur, m. rewrite app_nil_r. by split; [|split; [left|]].
  - apply Forall2_cons_inv_l in Hvs as (v & vs' & Hv & Hvs & ->).
    apply Forall2_cons_inv_l in Hns as (n & ns' & Hn & Hns & ->).
    cbn [max_loop]. rewrite bind_eq, (subscript_reading _ _ _ _ Hv).
    rewrite bind_eq, (py_gt_numbers _ _ _ _ _ Hn Hcur).
    destruct (num_gt n m) eqn:Hgt.
    + destruct (IH vs' ns' (seen ++ [n]) v n ws Hvs Hns Hn) as (peak & pk & Hrun & Hin & Hpk & Hmax).
      { intros z Hz. apply elem_of_app in Hz as [Hz|Hz].
        - by apply (num_gt_replace n m z Hgt), Hseen.
        - apply list_elem_of_singleton in Hz as ->. apply num_gt_irrefl. }
      exists peak, pk. split; [done|]. split; [|split; [done|]].
      * right. destruct Hin as [->|Hin]; [by left|by right].
      * intros z Hz. apply Hmax. by rewrite <- app_assoc.
    + destruct (IH vs' ns' (seen ++ [n]) cur m ws Hvs Hns Hcur) as (peak & pk & Hrun & Hin & Hpk & Hmax).
      { intros z Hz. apply elem_of_app in Hz as [Hz|Hz]; [by apply Hseen|].
        by apply list_elem_of_singleton in Hz as ->. }
      exists peak, pk. split; [done|]. split; [|split; [done|]].
      * destruct Hin as [->|Hin]; [by left|right; by right].
      * intros z Hz. apply Hmax. by rewrite <- app_assoc.
Qed.

Lemma py_max_numbers {St} (key : string) (t0 : PyVal) (rest vs : list PyVal)
    (ns : list PyNum) (ws : World * St) :
  Forall2 (fun t v => reading key t = Some v) (t0 :: rest) vs →
  Forall2 (fun v n => as_num v = Some n) vs ns →
  ∃ peak pk, py_max rt key t0 rest ws = (Ret peak, ws) ∧
             peak ∈ vs ∧ as_num peak = Some pk ∧
             (∀ n, n ∈ ns → num_gt n pk = false).
Proof.
  intros Hvs Hns.
  apply Forall2_cons_inv_l in Hvs as (v & vs' & Hv & Hvs & ->).
  apply Forall2_cons_inv_l in Hns as (n & ns' & Hn & Hns & ->).
  unfold py_max. rewrite bind_eq, (subscript_reading _ _ _ _ Hv).
  destruct (max_loop_numbers key rest vs' ns' [n] v n ws Hvs Hns Hn)
    as (peak & pk & Hrun & Hin & Hpk & Hmax).
  { intros z Hz. apply list_elem_of_singleton in Hz as ->. apply num_gt_irrefl. }
  exists peak, pk. split; [done|]. split; [|by split].
  destruct Hin as [->|Hin]; [by left|by right].
Qed.

(** The loop of [max] changes neither world nor state, and raises when
    an entry has no reading. *)
Lemma max_loop_state {St} (key : string) (entries : list PyVal) :
  ∀ (cur : PyVal) (ws : World * St), snd (max_loop rt key cur entries ws) = ws.
Proof.
  induction entries as [|t entries IH]; intros cur ws; [done|].
  cbn [max_loop]. rewrite bind_eq.
  destruct (reading key t) as [v|] eqn:Hv.
  - rewrite (subscript_reading _ _ _ _ Hv), bind_eq.
    assert (Hs := py_gt_state v cur ws).
    destruct (py_gt rt v cur ws) as [[b|e] ws']; cbn [snd] in Hs; subst ws'; [apply IH|done].
  - by rewrite (subscript_no_reading _ _ _ Hv).
Qed.

Lemma py_max_state {St} (key : string) (t0 : PyVal) (rest : list PyVal)
    (ws : World * St) :
  snd (py_max rt key t0 rest ws) = ws.
Proof.
  unfold py_max. rewrite bind_eq.
  destruct (reading key t0) as [v|] eqn:Hv.
  - rewrite (subscript_reading _ _ _ _ Hv). apply max_loop_state.
  - by rewrite (subscript_no_reading _ _ _ Hv).
Qed.

Lemma max_loop_missing {St} (key : string) (entries : list PyVal) :
  mapM (reading key) entries = None →
  ∀ (cur : PyVal) (ws : World * St), ∃ e, max_loop rt key cur entries ws = (Raise e, ws).
Proof.
  induction entries as [|t entries IH]; intros Hnone cur ws; [done|].
  cbn [max_loop]. rewrite bind_eq.
  destruct (reading key t) as [v|] eqn:Hv.
  - rewrite (subscript_reading _ _ _ _ Hv), bind_eq.
    assert (Hs := py_gt_state v cur ws).
    destruct (py_gt rt v cur ws) as [[b|e] ws']; cbn [snd] in Hs; subst ws'; [|by exists e].
    apply IH. cbn in Hnone. rewrite Hv in Hnone. cbn in Hnone.
    by destruct (mapM (reading key) entries).
  - rewrite (subscript_no_reading _ _ _ Hv). by eexists.
Qed.

Lemma py_truediv_state {St} (x y : PyVal) (ws : World * St) :
  snd (py_truediv rt x y ws) = ws.
Proof.
  unfold py_truediv. destruct (as_num x) as [a|], (as_num y) as [b|]; try done.
  by destruct (div_error a b).
Qed.

Lemma py_truediv_numbers {St} (x y : PyVal) (a b : PyNum) (ws : World * St) :
  as_num x = Some a → as_num y = Some b →
  py_truediv rt x y ws
  = (match div_error a b with Some e => Raise e | None => Ret (quotient rt a b) end, ws).
Proof. unfold py_truediv. intros -> ->. by destruct (div_error a b). Qed.

Lemma str_of_state {St} (v : PyVal) (ws : World * St) : snd (str_of rt v ws) = ws.
Proof. reflexivity. Qed.

Lemma str_of_formattable {St} (v : PyVal) (ws : World * St) :
  formattable rt v → ∃ s, str_of rt v ws = (Ret s, ws).
Proof.
  unfold formattable, str_of. destruct (py_str rt v) as [s|e]; [|done]. by exists s.
Qed.

(** *** check_latency *)

Lemma check_latency_empty (w : World) (a : MetricsAgent) :
  latency a = [] →
  check_latency rt (w, a) = (Ret tt, (w, with_step (2 + step a) a)).
Proof.
  intros H. unfold check_latency.
  rewrite bind_eq. cbn [_log modify fst snd].
  rewrite bind_eq. cbn [get fst snd latency with_step]. by rewrite H.
Qed.

(** A run that raises has added no finding. *)
Lemma check_latency_raise (w : World) (a : MetricsAgent) (e : PyExn) :
  outcome_of (check_latency rt (w, a)) = Raise e →
  findings (state_of (check_latency rt (w, a))) = findings a.
Proof.
  unfold check_latency.
  rewrite bind_eq. cbn [_log modify fst snd].
  rewrite bind_eq. cbn [get fst snd latency with_step].
  destruct (latency a) as [|t0 rest]; [done|].
  set (ws := (w, with_step (S (step a)) a)).
  rewrite bind_eq.
  destruct (reading "p99" t0) as [start|] eqn:Hstart.
  2:{ by rewrite (subscript_no_reading _ _ _ Hstart). }
  rewrite (subscript_reading _ _ _ _ Hstart), bind_eq.
  assert (Hs := py_max_state "p99" t0 rest ws).
  destruct (py_max rt "p99" t0 rest ws) as [[peak|e1] ws1]; cbn [snd] in Hs; subst ws1;
    [|by intros _].
  rewrite bind_eq.
  assert (Hs := py_truediv_state peak start ws).
  destruct (py_truediv rt peak start ws) as [[q|e2] ws2]; cbn [snd] in Hs; subst ws2;
    [|by intros _].
  rewrite bind_eq. unfold str_of.
  destruct (py_str rt start) as [s1|e3]; [|by intros _].
  rewrite bind_eq.
  destruct (py_str rt peak) as [s2|e4]; [|by intros _].
  done.
Qed.

Lemma check_latency_missing (w : World) (a : MetricsAgent) :
  mapM (reading "p99") (latency a) = None →
  ∃ e, outcome_of (check_latency rt (w, a)) = Raise e.
Proof.
  intros Hnone. unfold check_latency.
  rewrite bind_eq. cbn [_log modify fst snd].
  rewrite bind_eq. cbn [get fst snd latency with_step].
  destruct (latency a) as [|t0 rest]; [done|].
  set (ws := (w, with_step (S (step a)) a)).
  rewrite bind_eq.
  destruct (reading "p99" t0) as [start|] eqn:Hstart.
  2:{ rewrite (subscript_no_reading _ _ _ Hstart). by eexists. }
  rewrite (subscript_reading _ _ _ _ Hstart), bind_eq.
  unfold py_max. rewrite bind_eq, (subscript_reading _ _ _ _ Hstart).
  assert (Hrest : mapM (reading "p99") rest = None).
  { cbn in Hnone. rewrite Hstart in Hnone. cbn in Hnone.
    by destruct (mapM (reading "p99") rest). }
  destruct (max_loop_missing "p99" rest Hrest start ws) as [e ->].
  by exists e.
Qed.

Lemma check_latency_numbers (w : World) (a : MetricsAgent) (vs : list PyVal)
    (ns : list PyNum) (start : PyNum) :
  mapM (reading "p99") (latency a) = Some vs → mapM as_num vs = Some ns →
  head ns = Some start → (∀ v, v ∈ vs → formattable rt v) →
  ∃ peak pk,
    peak ∈ vs ∧ as_num peak = Some pk ∧ (∀ n, n ∈ ns → num_gt n pk = false) ∧
    match div_error pk start with
    | Some e => outcome_of (check_latency rt (w, a)) = Raise e
    | None =>
        outcome_of (check_latency rt (w, a)) = Ret tt ∧
        ∃ f, findings (state_of (check_latency rt (w, a))) = findings a ++ [f] ∧
             evidence_factor f = Some (float_val (round1 rt (quotient rt pk start)))
    end.
Proof.
  intros Hvs Hns Hhead Hfmt. apply mapM_Some in Hvs. apply mapM_Some in Hns.
  unfold check_latency.
  rewrite bind_eq. cbn [_log modify fst snd].
  rewrite bind_eq. cbn [get fst snd latency with_step].
  destruct (latency a) as [|t0 rest].
  { apply Forall2_nil_inv_l in Hvs as ->. by apply Forall2_nil_inv_l in Hns as ->. }
  set (ws := (w, with_step (S (step a)) a)).
  destruct (py_max_numbers "p99" t0 rest vs ns ws Hvs Hns)
    as (peak & pk & Hmax & Hin & Hpk & Hle).
  exists peak, pk. split; [done|]. split; [done|]. split; [done|].
  apply Forall2_cons_inv_l in Hvs as (v0 & vs' & Hv0 & _ & ->).
  apply Forall2_cons_inv_l in Hns as (n0 & ns' & Hn0 & _ & ->).
  cbn [head] in Hhead. injection Hhead as ->.
  rewrite bind_eq, (subscript_reading _ _ _ _ Hv0).
  rewrite bind_eq, Hmax.
  rewrite bind_eq, (py_truediv_numbers _ _ _ _ _ Hpk Hn0).
  destruct (div_error pk start); [done|].
  destruct (str_of_formattable v0 ws) as [s1 Hs1]; [apply Hfmt; by left|].
  destruct (str_of_formattable peak ws (Hfmt _ Hin)) as [s2 Hs2].
  rewrite bind_eq, Hs1, bind_eq, Hs2.
  split; [done|]. eexists. split; reflexivity.
Qed.

End WithRuntime.

(** C10 (as stated, refuted). A series whose first p99 is 1, not zero,
    and whose peak is 10^400: the quotient is beyond the range of a float,
    the division raises OverflowError whatever the runtime, and no finding
    is emitted.  Likewise a series with a reading that is not a number
    raises TypeError, and a series of ints of 5001 digits raises
    ValueError, when the interpreter limits the digits of an int as text,
    as the texts of the finding are formed. *)
Lemma check_latency_overflow :
  reading "p99" <$> latency Samples.agent_overflow = [Some (VInt 1); Some (VInt (10 ^ 400))] ∧
  (∀ rt, outcome_of (check_latency rt (Samples.w0, Samples.agent_overflow))
         = Raise OverflowError) ∧
  ¬ emits_one_finding
      (check_latency Samples.runtime (Samples.w0, Samples.agent_overflow))
      Samples.agent_overflow ∧
  (∀ rt, outcome_of (check_latency rt (Samples.w0, Samples.agent_text_reading))
         = Raise TypeError) ∧
  outcome_of (check_latency Samples.digit_limited (Samples.w0, Samples.agent_huge))
    = Raise ValueError.
Proof.
  split; [by vm_compute|]. split; [|split; [|split]].
  - intros rt. by vm_compute.
  - intros [H _]. revert H. by vm_compute.
  - intros rt. by vm_compute.
  - by vm_compute.
Qed.

(** C10 (amended). On an empty series [check_latency] returns without a
    finding.  On a series whose entries each hold a number under ["p99"],
    a number whose text can be formed, the peak is a reading that no
    reading exceeds; unless the division [peak / start] raises, the check
    returns normally having added exactly one finding, whose factor is
    [round(peak / start, 1)].  The division raises ZeroDivisionError or
    OverflowError when the first p99 is zero, and OverflowError when the
    quotient of two ints is beyond the range of a float.  When an entry
    lacks ["p99"] the check raises; and a check that raises adds no
    finding. *)
Theorem check_latency_factor (rt : Runtime) (w : World) (a : MetricsAgent) :
  let r := check_latency rt (w, a) in
  (latency a = [] → outcome_of r = Ret tt ∧ findings (state_of r) = findings a) ∧
  (∀ vs ns start,
     mapM (reading "p99") (latency a) = Some vs → mapM as_num vs = Some ns →
     head ns = Some start → (∀ v, v ∈ vs → formattable rt v) →
     ∃ peak pk,
       peak ∈ vs ∧ as_num peak = Some pk ∧ (∀ n, n ∈ ns → num_gt n pk = false) ∧
       match div_error pk start with
       | Some e => outcome_of r = Raise e
       | None =>
           outcome_of r = Ret tt ∧
           ∃ f, findings (state_of r) = findings a ++ [f] ∧
                evidence_factor f = Some (float_val (round1 rt (quotient rt pk start)))
       end ∧
       (num_is_zero start = true →
          outcome_of r = Raise ZeroDivisionError ∨ outcome_of r = Raise OverflowError) ∧
       (∀ x y, pk = PInt x → start = PInt y → y ≠ 0%Z →
          quotient_too_large x y = true → outcome_of r = Raise OverflowError)) ∧
  (mapM (reading "p99") (latency a) = None → ∃ e, outcome_of r = Raise e) ∧
  (∀ e, outcome_of r = Raise e → findings (state_of r) = findings a).
Proof.
  cbn zeta. split; [|split; [|split]].
  - intros H. by rewrite (check_latency_empty _ _ _ H).
  - intros vs ns start Hvs Hns Hstart Hfmt.
    destruct (check_latency_numbers rt w a vs ns start Hvs Hns Hstart Hfmt)
      as (peak & pk & Hin & Hpk & Hle & Hrun).
    exists peak, pk. split; [done|]. split; [done|]. split; [done|].
    split; [exact Hrun|]. split.
    + intros Hz. destruct (div_error_zero pk start Hz) as [H|H];
        rewrite H in Hrun; [by left|by right].
    + intros x y -> -> Hy Hbig. cbn [div_error] in Hrun.
      apply Z.eqb_neq in Hy. by rewrite Hy, Hbig in Hrun.
  - apply check_latency_missing.
  - apply check_latency_raise.
Qed.

Lemma check_latency_factor_witness :
  (∃ f, findings (state_of (check_latency Samples.runtime (Samples.w0, Samples.agent_spike)))
        = [f] ∧
        evidence_factor f = Some (VFloat (Samples.half_up1 (Samples.exact_div 25000 1200)))) ∧
  outcome_of (check_latency Samples.runtime (Samples.w0, Samples.agent_zero_start))
    = Raise ZeroDivisionError ∧
  findings (state_of (check_latency Samples.runtime (Samples.w0, Samples.agent_no_data))) = [].
Proof.
  split; [|split].
  - destruct (check_latency_factor Samples.runtime Samples.w0 Samples.agent_spike)
      as (_ & H & _).
    destruct (H [VInt 1200; VInt 8400; VInt 25000; VInt 17300]
                [PInt 1200; PInt 8400; PInt 25000; PInt 17300] (PInt 1200)
                eq_refl eq_refl eq_refl (fun _ _ => I)) as (peak & pk & _ & _ & _ & Hrun & _).
    destruct (div_error pk (PInt 1200)).
    + exfalso. revert Hrun. by vm_compute.
    + destruct Hrun as (_ & f & Hf & _). exists f. split; [exact Hf|].
      revert Hf. vm_compute. intros Hf. by injection Hf as <-.
  - destruct (check_latency_factor Samples.runtime Samples.w0 Samples.agent_zero_start)
      as (_ & H & _).
    destruct (H [VInt 0; VInt 25000] [PInt 0; PInt 25000] (PInt 0) eq_refl eq_refl eq_refl
                (fun _ _ => I))
      as (peak & pk & _ & _ & _ & _ & Hzero & _).
    destruct (Hzero eq_refl) as [Hz|Hz]; [exact Hz|].
    exfalso. revert Hz. by vm_compute.
  - destruct (check_latency_factor Samples.runtime Samples.w0 Samples.agent_no_data)
      as (H & _).
    exact (proj2 (H eq_refl)).
Defined.

Example spike_factor :
  evidence_factor <$>
    findings (state_of (check_latency Samples.runtime (Samples.w0, Samples.agent_spike)))
  = [Some (VFloat (208 # 10))].
Proof. by vm_compute. Qed.

End MetricsTheory.


(** ** Inboxes, finding lookup and serialisation (state.py) *)

Module StateOpsTheory.
Import State StateOps.

Lemma receiver_eqb_spec (a b : Receiver) :
  receiver_eqb a b = true ↔ Receiver_value a = Receiver_value b.
Proof. unfold receiver_eqb. apply String.eqb_eq. Qed.

Lemma delivered_iff (agent : AgentRole) (m : AgentMessage) :
  receiver_eqb (m_receiver m) (ToRole agent) || receiver_eqb (m_receiver m) (ToStr "ALL") = true
  ↔ addressed_to agent m.
Proof.
  unfold addressed_to. rewrite orb_true_iff, !receiver_eqb_spec. reflexivity.
Qed.

Lemma inbox_filter (agent : AgentRole) (msg_type : option MessageType) (s : SharedState) :
  inbox agent msg_type s
  = filter (fun m => addressed_to agent m ∧ of_type msg_type m) (message_ledger s).
Proof.
  unfold inbox, get_messages_for.
  induction (message_ledger s) as [|m ms IH]; [by destruct msg_type|].
  rewrite !filter_cons.
  destruct msg_type as [t|]; cbn [of_type] in *.
  - destruct (decide (addressed_to agent m ∧ m_msg_type m = t)) as [[Ha Ht]|Hn].
    + rewrite decide_True by (by apply delivered_iff).
      rewrite filter_cons, decide_True by done. by rewrite IH.
    + destruct (decide (_ || _ = true)) as [Hd|Hd]; [|exact IH].
      rewrite filter_cons, decide_False; [exact IH|].
      intros Ht. apply Hn. split; [by apply delivered_iff|done].
  - destruct (decide (addressed_to agent m ∧ True)) as [[Ha _]|Hn].
    + rewrite decide_True by (by apply delivered_iff). by rewrite IH.
    + rewrite decide_False; [exact IH|].
      intros Hd. apply Hn. split; [by apply delivered_iff|done].
Qed.

(** X1. The inbox of an agent holds exactly the ledger's messages whose
    receiver is the agent, the string that is the agent's value, or "ALL",
    and that have the requested type when one is given; it lists them in
    ledger order. *)
Theorem inbox_spec (agent : AgentRole) (msg_type : option MessageType) (s : SharedState) :
  (∀ m, m ∈ inbox agent msg_type s ↔
        m ∈ message_ledger s ∧ addressed_to agent m ∧ of_type msg_type m) ∧
  inbox agent msg_type s `sublist_of` message_ledger s.
Proof.
  rewrite inbox_filter. split.
  - intros m. rewrite list_elem_of_filter. tauto.
  - apply sublist_filter.
Qed.

(** X2. A dispatch adds its message at the end of the inbox of every
    agent it is addressed to, under every type filter the message passes,
    and leaves all other inboxes as they were. *)
Theorem dispatch_inbox (c : DispatchCall) (w : World) (s : SharedState)
    (agent : AgentRole) (msg_type : option MessageType) :
  ∃ msg, outcome_of (dispatch_call c (w, s)) = Ret msg ∧
         built_from c msg ∧
         inbox agent msg_type (state_of (dispatch_call c (w, s)))
         = inbox agent msg_type s ++
           (if decide ((Receiver_value (dc_receiver c) = AgentRole_value agent ∨
                        Receiver_value (dc_receiver c) = "ALL") ∧
                       of_type msg_type msg)
            then [msg] else []).
Proof.
  exists (message_of w c). rewrite StateTheory.dispatch_call_eq.
  split; [done|]. split; [apply StateTheory.message_of_built|].
  cbn [state_of snd]. rewrite !inbox_filter.
  change (message_ledger (with_message_ledger (message_ledger s ++ [message_of w c]) s))
    with (message_ledger s ++ [message_of w c]).
  rewrite filter_app, filter_cons, filter_nil. f_equal.
Qed.

(** X3. A broadcast reaches every agent: its message is added at the end
    of each agent's unfiltered inbox, and of the inbox filtered by the
    type it was sent with. *)
Theorem broadcast_inbox (sender agent : AgentRole) (msg_type : MessageType)
    (payload : list (string * PyVal)) (w : World) (s : SharedState) :
  ∃ msg, outcome_of (broadcast sender msg_type payload (w, s)) = Ret msg ∧
         m_receiver msg = ToStr "ALL" ∧ m_sender msg = sender ∧
         m_msg_type msg = msg_type ∧ m_payload msg = payload ∧
         m_in_reply_to msg = None ∧
         inbox agent None (state_of (broadcast sender msg_type payload (w, s)))
         = inbox agent None s ++ [msg] ∧
         inbox agent (Some msg_type) (state_of (broadcast sender msg_type payload (w, s)))
         = inbox agent (Some msg_type) s ++ [msg].
Proof.
  set (c := mkDispatchCall sender (ToStr "ALL") msg_type payload None).
  change (broadcast sender msg_type payload) with (dispatch_call c).
  exists (message_of w c). rewrite StateTheory.dispatch_call_eq.
  repeat (split; [done|]). cbn [state_of snd]. rewrite !inbox_filter.
  change (message_ledger (with_message_ledger (message_ledger s ++ [message_of w c]) s))
    with (message_ledger s ++ [message_of w c]).
  rewrite !filter_app, !filter_cons, !filter_nil.
  rewrite !decide_True; [done| |]; (split; [by right|done]).
Qed.

(** X4. After [add_finding], the submitted finding is the last one that
    [get_findings_by_agent] returns for its own agent; the findings of
    every other agent, the ledger and hence every inbox are as before. *)
Theorem add_finding_by_agent (f : Finding) (w : World) (s : SharedState) (agent : AgentRole) :
  let s' := state_of (add_finding f (w, s)) in
  get_findings_by_agent agent s'
  = get_findings_by_agent agent s ++ (if decide (f_agent f = agent) then [f] else []) ∧
  message_ledger s' = message_ledger s ∧
  (∀ a t, inbox a t s' = inbox a t s).
Proof.
  cbn zeta. rewrite StateTheory.add_finding_eq. cbn [state_of snd].
  unfold get_findings_by_agent.
  change (findings (with_findings (findings s ++ [f]) s)) with (findings s ++ [f]).
  rewrite filter_app, filter_cons, filter_nil. done.
Qed.

Lemma run_op_eq (o : Op) (w : World) (s : SharedState) :
  ∃ w' s', run_op o (w, s) = (Ret tt, (w', s')) ∧
           same_but_findings_and_ledger s s' ∧
           findings s' = findings s ++ submitted [o] ∧
           ∃ ms, message_ledger s' = message_ledger s ++ ms ∧
                 length ms = (if is_add o then 0 else 1)%nat.
Proof.
  destruct o as [f|c|sender msg_type payload].
  - exists w, (with_findings (findings s ++ [f]) s). split; [done|].
    split; [by destruct s|]. split; [done|]. exists []. by rewrite app_nil_r.
  - eexists _, _. split.
    { cbn [run_op]. rewrite bind_eq, StateTheory.dispatch_call_eq. reflexivity. }
    split; [by destruct s|]. cbn [submitted omap]. rewrite app_nil_r.
    split; [done|]. by eexists [_].
  - set (c := mkDispatchCall sender (ToStr "ALL") msg_type payload None).
    eexists _, _. split.
    { cbn [run_op]. change (broadcast sender msg_type payload) with (dispatch_call c).
      rewrite bind_eq, StateTheory.dispatch_call_eq. reflexivity. }
    split; [by destruct s|]. cbn [submitted omap]. rewrite app_nil_r.
    split; [done|]. by eexists [_].
Qed.

(** X5. Whatever sequence of [add_finding], [dispatch] and [broadcast]
    calls is made, every call returns; the findings grow by exactly the
    submitted findings, in order, and the ledger by one message per
    dispatch or broadcast; findings and messages already stored stay where
    they are; and no other field of the state (phase, severity, alert,
    correlations, rca, flags) changes. *)
Theorem run_ops_append_only (ops : list Op) (w : World) (s : SharedState) :
  let s' := state_of (run_ops ops (w, s)) in
  outcome_of (run_ops ops (w, s)) = Ret tt ∧
  findings s' = findings s ++ submitted ops ∧
  message_ledger s `prefix_of` message_ledger s' ∧
  length (message_ledger s') =
    (length (message_ledger s) + length (List.filter (fun o => negb (is_add o)) ops))%nat ∧
  same_but_findings_and_ledger s s'.
Proof.
  cbn zeta. revert w s. induction ops as [|o ops IH]; intros w s.
  - cbn. rewrite !app_nil_r, Nat.add_0_r. repeat split; [done|by destruct s].
  - destruct (run_op_eq o w s) as (w' & s1 & Hrun & Hsame & Hf & ms & Hm & Hlen).
    unfold run_ops in *. cbn [for_each]. rewrite bind_eq, Hrun.
    destruct (IH w' s1) as (Hout & Hf' & Hpre & Hlen' & Hsame').
    split; [exact Hout|]. split; [|split; [|split]].
    + rewrite Hf', Hf. cbn [submitted omap].
      destruct o; cbn [omap]; by rewrite <- ?app_assoc, ?app_nil_r.
    + etrans; [|exact Hpre]. rewrite Hm. by apply prefix_app_r.
    + rewrite Hlen', Hm, length_app, Hlen. cbn [List.filter].
      destruct o; cbn [is_add negb length]; lia.
    + unfold same_but_findings_and_ledger in *. clear -Hsame Hsame'.
      revert Hsame'. generalize (state_of (for_each ops run_op (w', s1))).
      intros s2 Hsame'. destruct s, s1, s2.
      unfold with_findings, with_message_ledger in *. cbn in *.
      injection Hsame; injection Hsame'; intros; subst; reflexivity.
Qed.

Lemma map_VStr_inj (l1 l2 : list string) : map VStr l1 = map VStr l2 → l1 = l2.
Proof.
  revert l2. induction l1 as [|a l1 IH]; intros [|b l2] H; try done.
  cbn in H. injection H as -> H. f_equal. by apply IH.
Qed.

Lemma AgentRole_value_inj (a b : AgentRole) : AgentRole_value a = AgentRole_value b → a = b.
Proof. by destruct a, b. Qed.

Lemma Severity_value_inj (a b : Severity) : Severity_value a = Severity_value b → a = b.
Proof. by destruct a, b. Qed.

Lemma MessageType_value_inj (a b : MessageType) :
  MessageType_value a = MessageType_value b → a = b.
Proof. by destruct a, b. Qed.

(** X6. [Finding.to_dict] loses nothing: two findings have the same
    dictionary exactly when they are the same finding. *)
Theorem Finding_to_dict_inj (f g : Finding) :
  Finding_to_dict f = Finding_to_dict g ↔ f = g.
Proof.
  split; [|by intros ->].
  destruct f, g. unfold Finding_to_dict. cbn.
  intros H. injection H as Hid Hag Hts Hti Hde Hse Hev Hrs Hrl Hco.
  apply AgentRole_value_inj in Hag. apply Severity_value_inj in Hse.
  apply map_VStr_inj in Hrs. apply map_VStr_inj in Hrl. by subst.
Qed.

(** X7. [AgentMessage.to_dict] keeps every field except the kind of the
    receiver: two messages have the same dictionary exactly when they
    agree on id, timestamp, sender, type, payload and in_reply_to and
    their receivers have the same value, so a message to a role and one to
    the string of that role's value serialise alike. *)
Theorem AgentMessage_to_dict_eq (m n : AgentMessage) :
  AgentMessage_to_dict m = AgentMessage_to_dict n ↔
  m_id m = m_id n ∧ m_timestamp m = m_timestamp n ∧ m_sender m = m_sender n ∧
  Receiver_value (m_receiver m) = Receiver_value (m_receiver n) ∧
  m_msg_type m = m_msg_type n ∧ m_payload m = m_payload n ∧
  m_in_reply_to m = m_in_reply_to n.
Proof.
  unfold AgentMessage_to_dict. split.
  - intros H. injection H as Hid Hts Hse Hre Hty Hpa Hir.
    apply AgentRole_value_inj in Hse. apply MessageType_value_inj in Hty.
    repeat (split; [done|]).
    destruct (m_in_reply_to m), (m_in_reply_to n); congruence.
  - intros (-> & -> & -> & -> & -> & -> & ->). reflexivity.
Qed.

End StateOpsTheory.
(** ** The stages in sequence (commander_agent.py) *)

Module PipelineTheory.
Import Commander Spec Pipeline CommanderTheory.

Lemma iter_tick (k : nat) (w : World) : Nat.iter k tick_uuid w = advance_uuid k w.
Proof.
  induction k as [|k IH]; simpl.
  - by rewrite advance_uuid_0.
  - rewrite IH. unfold advance_uuid, tick_uuid. cbn. f_equal. lia.
Qed.

Lemma advance_uuid_add (j k : nat) (w : World) :
  advance_uuid k (advance_uuid j w) = advance_uuid (j + k) w.
Proof. unfold advance_uuid. cbn. f_equal. lia. Qed.

Lemma triage_ok (w : World) (c : CommanderAgent) (vs vt v : PyVal) :
  alert c !! "source" = Some vs → alert c !! "title" = Some vt →
  alert c !! "severity" = Some v → first_unreadable w = None →
  triage (w, c) =
  (Ret tt,
   (advance_uuid 3 w,
    mkCommander (alert c) (9 + step c) (triaged_severity v) (findings c) (correlations c)
      (Some the_plan) (tasks c ++ dispatched_tasks (uuid_stream w) (uuid_drawn w)) (rca c))).
Proof.
  intros Hs Ht Hv Hr. rewrite <- iter_tick. unfold triage.
  rewrite bind_eq, (alert_item_some _ _ _ _ Hs).
  rewrite bind_eq, (alert_item_some _ _ _ _ Ht).
  rewrite bind_eq, (alert_item_some _ _ _ _ Hv).
  rewrite bind_eq. cbn [_log modify fst snd].
  rewrite bind_eq, (alert_item_some "severity" v w (with_step (S (step c)) c) Hv).
  unfold triaged_severity.
  generalize (if py_eq_str v "P1" then "P1_CRITICAL" else "P2_HIGH"). intros sv.
  unfold first_unreadable, data_files in Hr. cbn [List.find] in Hr.
  destruct (readable w "application_logs.json") eqn:E1; [|done].
  destruct (readable w "infrastructure_metrics.json") eqn:E2; [|done].
  destruct (readable w "deployment_history.json") eqn:E3; [|done].
  cbv -[readable load_failure app]. rewrite E1, E2, E3. rewrite <- !app_assoc. reflexivity.
Qed.

Lemma triage_unreadable (w : World) (c : CommanderAgent) (vs vt v : PyVal) (name : string) :
  alert c !! "source" = Some vs → alert c !! "title" = Some vt →
  alert c !! "severity" = Some v → first_unreadable w = Some name →
  ∃ k, (k ≤ 2)%nat ∧
  triage (w, c) =
  (Raise (load_failure w name),
   (w, mkCommander (alert c) (k + (2 + step c)) (triaged_severity v) (findings c)
         (correlations c) (plan c) (tasks c) (rca c))).
Proof.
  intros Hs Ht Hv Hr. unfold triage.
  rewrite bind_eq, (alert_item_some _ _ _ _ Hs).
  rewrite bind_eq, (alert_item_some _ _ _ _ Ht).
  rewrite bind_eq, (alert_item_some _ _ _ _ Hv).
  rewrite bind_eq. cbn [_log modify fst snd].
  rewrite bind_eq, (alert_item_some "severity" v w (with_step (S (step c)) c) Hv).
  unfold triaged_severity.
  generalize (if py_eq_str v "P1" then "P1_CRITICAL" else "P2_HIGH"). intros sv.
  unfold first_unreadable, data_files in Hr. cbn [List.find] in Hr.
  destruct (readable w "application_logs.json") eqn:E1; cbn [negb] in Hr.
  2:{ injection Hr as <-. exists 0%nat. split; [lia|].
      cbv -[readable load_failure]. rewrite E1. by destruct w. }
  destruct (readable w "infrastructure_metrics.json") eqn:E2; cbn [negb] in Hr.
  2:{ injection Hr as <-. exists 1%nat. split; [lia|].
      cbv -[readable load_failure]. rewrite E1, E2. by destruct w. }
  destruct (readable w "deployment_history.json") eqn:E3; cbn [negb] in Hr; [done|].
  injection Hr as <-. exists 2%nat. split; [lia|].
  cbv -[readable load_failure]. rewrite E1, E2, E3. by destruct w.
Qed.



Lemma first_unreadable_spec (w : World) (name : string) :
  first_unreadable w = Some name → name ∈ data_files ∧ readable w name = false.
Proof.
  intros H. apply find_some in H as [Hin Hneg]. split.
  - by apply list_elem_of_In.
  - by apply negb_true_iff.
Qed.



Lemma collect_findings_eq (w : World) (c : CommanderAgent) :
  collect_findings (w, c) =
  (Ret tt,
   (advance_uuid 16 w,
    mkCommander (alert c) (4 + step c) (severity c)
      (findings c ++ stamped (uuid_stream w) (uuid_drawn w))
      (correlations c) (plan c) (tasks c) (rca c))).
Proof.
  rewrite <- iter_tick. cbv -[app]. rewrite <- !app_assoc. reflexivity.
Qed.

Lemma stamped_ids (ids : nat -> string) (n : nat) :
  map fd_id (stamped ids n) = (fun i => "find-" +:+ ids (i + n)) <$> seq 0 16.
Proof. reflexivity. Qed.

(** X10. [collect_findings] always returns, having appended the 16
    entries of [SPECIALIST_FINDINGS] in table order: each keeps the title,
    severity, confidence and evidence of its entry, gets the agent it is
    listed under and the identifier "find-" followed by a freshly drawn
    value, so the identifiers are pairwise distinct whenever the 16 drawn
    values are. *)
Theorem collect_findings_appends (w : World) (c : CommanderAgent) :
  let c' := state_of (collect_findings (w, c)) in
  let new := collected (findings c) (findings c') in
  outcome_of (collect_findings (w, c)) = Ret tt ∧
  world_of (collect_findings (w, c)) = advance_uuid 16 w ∧
  length (findings c') = (length (findings c) + 16)%nat ∧
  new = stamped (uuid_stream w) (uuid_drawn w) ∧
  map fd_agent new = map fst table_items ∧
  map (fun f => (fd_title f, fd_severity f, fd_confidence f, fd_evidence f)) new
    = map (fun x => (si_title (snd x), si_severity (snd x), si_confidence (snd x),
                     si_evidence (snd x))) table_items ∧
  map fd_id new
    = map (fun i => "find-" +:+ uuid_stream w (i + uuid_drawn w)) (seq 0 16) ∧
  ((∀ i j, (i < 16)%nat → (j < 16)%nat →
           uuid_stream w (i + uuid_drawn w) = uuid_stream w (j + uuid_drawn w) → i = j) →
   NoDup (map fd_id new)) ∧
  severity c' = severity c ∧ correlations c' = correlations c ∧
  plan c' = plan c ∧ tasks c' = tasks c ∧ rca c' = rca c.
Proof.
  cbn zeta. rewrite collect_findings_eq.
  cbn [state_of outcome_of world_of fst snd findings severity correlations plan tasks rca].
  unfold collected. rewrite drop_app_length, length_app.
  repeat (split; [done|]). split; [|done].
  intros Hinj. rewrite stamped_ids. apply NoDup_fmap_2_strong; [|apply NoDup_seq].
  intros i j Hi Hj Heq. apply elem_of_seq in Hi, Hj.
  apply Hinj; [lia|lia|]. by injection Heq.
Qed.

(** [triage] leaves findings, correlations and report alone, and when it
    raises it has neither set the plan nor dispatched a task. *)
Lemma triage_frame (w : World) (c : CommanderAgent) :
  let c' := state_of (triage (w, c)) in
  findings c' = findings c ∧ correlations c' = correlations c ∧ rca c' = rca c ∧
  (∀ e, outcome_of (triage (w, c)) = Raise e → plan c' = plan c ∧ tasks c' = tasks c).
Proof.
  cbn zeta.
  destruct (alert c !! "source") as [vs|] eqn:Hs;
    [|by destruct (triage_absent w c) as [-> _]; [left|]].
  destruct (alert c !! "title") as [vt|] eqn:Ht;
    [|by destruct (triage_absent w c) as [-> _]; [right; left|]].
  destruct (alert c !! "severity") as [v|] eqn:Hv;
    [|by destruct (triage_absent w c) as [-> _]; [right; right|]].
  destruct (first_unreadable w) as [name|] eqn:Hr.
  - by destruct (triage_unreadable w c vs vt v name Hs Ht Hv Hr) as (k & _ & ->).
  - by rewrite (triage_ok w c vs vt v Hs Ht Hv Hr).
Qed.





(** *** Links and findings *)

Lemma linked_ids_sublist (lower : string -> string) (keywords : list string)
    (fs : list FindingDict) :
  linked_ids lower keywords fs `sublist_of` map fd_id fs.
Proof.
  unfold linked_ids. induction fs as [|f fs IH]; [done|].
  cbn [List.filter map]. destruct (matches lower keywords f); cbn [map].
  - by apply sublist_skip.
  - by apply sublist_cons.
Qed.

Lemma links_of_elem (lower : string -> string) (rules : list Rule)
    (fs : list FindingDict) (ids : nat -> string) :
  ∀ n l, l ∈ links_of lower rules fs ids n →
         ∃ r k, r ∈ rules ∧ fires lower r fs = true ∧ l = link_of lower r fs (ids k).
Proof.
  induction rules as [|r rules IH]; intros n l Hl.
  { by apply elem_of_nil in Hl. }
  cbn [links_of] in Hl. destruct (fires lower r fs) eqn:Hr.
  - apply elem_of_cons in Hl as [->|Hl].
    + exists r, n. split; [by left|done].
    + destruct (IH _ _ Hl) as (r' & k & Hin & Hf & ->).
      exists r', k. split; [by right|done].
  - destruct (IH _ _ Hl) as (r' & k & Hin & Hf & ->).
    exists r', k. split; [by right|done].
Qed.

Lemma links_of_length (lower : string -> string) (rules : list Rule)
    (fs : list FindingDict) (ids : nat -> string) :
  ∀ n, (length (links_of lower rules fs ids n) ≤ length rules)%nat.
Proof.
  induction rules as [|r rules IH]; intros n; [done|].
  cbn [links_of length]. destruct (fires lower r fs); cbn [length].
  - specialize (IH (S n)). lia.
  - specialize (IH n). lia.
Qed.

Lemma links_of_per_rule (lower : string -> string) (rules : list Rule)
    (fs : list FindingDict) (ids : nat -> string) :
  ∀ n, map link_content (links_of lower rules fs ids n)
       = map (fun r => (rule_title r, rule_description r,
                        linked_ids lower (rule_keywords r) fs, rule_confidence r))
             (List.filter (fun r => (2 <=? length (linked_ids lower (rule_keywords r) fs))%nat)
                rules).
Proof.
  induction rules as [|r rules IH]; intros n; [done|].
  cbn [links_of List.filter]. unfold fires.
  destruct (2 <=? length (linked_ids lower (rule_keywords r) fs))%nat; [|apply IH].
  cbn [map]. f_equal. apply IH.
Qed.

(** X13. Whatever the rule table, [correlate] appends exactly one link
    for each rule that links at least 2 findings and none for any other
    rule, in the order of the table: the links appended are, one by one,
    the title, description, linked ids and confidence of those rules.  So
    at most one link is appended per rule, every link comes from a rule of
    the table and links at least 2 findings, and its linked ids are ids of
    the commander's findings, in the order of the findings. *)
Theorem correlate_links_wellformed (lower : string -> string) (rules : list Rule)
    (w : World) (c : CommanderAgent) :
  let new := emitted (correlations c)
               (correlations (state_of (correlate_with lower rules (w, c)))) in
  let linked r := linked_ids lower (rule_keywords r) (findings c) in
  map link_content new
  = map (fun r => (rule_title r, rule_description r, linked r, rule_confidence r))
        (List.filter (fun r => (2 <=? length (linked r))%nat) rules) ∧
  (length new ≤ length rules)%nat ∧
  ∀ l, l ∈ new →
    (2 ≤ length (c_linked l))%nat ∧
    c_linked l `sublist_of` map fd_id (findings c) ∧
    ∃ r, r ∈ rules ∧ c_title l = rule_title r ∧
         c_description l = rule_description r ∧ c_confidence l = rule_confidence r.
Proof.
  cbn zeta. rewrite emitted_eq. split; [apply links_of_per_rule|].
  split; [apply links_of_length|].
  intros l Hl. destruct (links_of_elem _ _ _ _ _ _ Hl) as (r & k & Hin & Hf & ->).
  cbn [link_of c_linked c_title c_description c_confidence].
  split; [by apply Nat.leb_le|]. split; [apply linked_ids_sublist|].
  by exists r.
Qed.

Lemma links_of_few (lower : string -> string) (rules : list Rule)
    (fs : list FindingDict) (ids : nat -> string) :
  (length fs < 2)%nat → ∀ n, links_of lower rules fs ids n = [].
Proof.
  intros Hlen. induction rules as [|r rules IH]; intros n; [done|].
  cbn [links_of]. destruct (fires lower r fs) eqn:Hr; [|apply IH].
  unfold fires in Hr. apply Nat.leb_le in Hr.
  assert (H := sublist_length _ _ (linked_ids_sublist lower (rule_keywords r) fs)).
  rewrite length_map in H. lia.
Qed.

(** X14. With fewer than 2 findings (none, or a single one) [correlate]
    appends no link, whatever the rule table, and draws no identifier. *)
Theorem correlate_needs_two_findings (lower : string -> string) (rules : list Rule)
    (w : World) (c : CommanderAgent) (Hfew : (length (findings c) < 2)%nat) :
  outcome_of (correlate_with lower rules (w, c)) = Ret tt ∧
  correlations (state_of (correlate_with lower rules (w, c))) = correlations c ∧
  world_of (correlate_with lower rules (w, c)) = w.
Proof.
  rewrite correlate_with_eq, (links_of_few lower rules _ _ Hfew).
  cbn [outcome_of state_of world_of fst snd length correlations with_step with_correlations].
  by rewrite app_nil_r, advance_uuid_0.
Qed.

Lemma correlate_needs_two_findings_witness :
  length (findings Samples.commander_low) = 1%nat ∧
  correlations (state_of (correlate ascii_lower (Samples.w0, Samples.commander_low))) = [].
Proof.
  split; [reflexivity|].
  assert (Hfew : (length (findings Samples.commander_low) < 2)%nat) by (simpl; lia).
  exact (proj1 (proj2 (correlate_needs_two_findings ascii_lower CORRELATION_RULES
                         Samples.w0 Samples.commander_low Hfew))).
Defined.

(** X15. [correlate] never clears [self.correlations]: run a second time
    on the same commander, it appends links with the same content once
    more (under new identifiers), so the list then holds every link
    twice. *)
Theorem correlate_twice_duplicates (lower : string -> string) (w : World)
    (c : CommanderAgent) :
  let r1 := correlate lower (w, c) in
  let r2 := correlate lower (world_of r1, state_of r1) in
  let first := emitted (correlations c) (correlations (state_of r1)) in
  let second := emitted (correlations (state_of r1)) (correlations (state_of r2)) in
  outcome_of r2 = Ret tt ∧
  correlations (state_of r2) = correlations c ++ first ++ second ∧
  map link_content second = map link_content first ∧
  findings (state_of r2) = findings c.
Proof.
  cbn zeta. unfold correlate.
  rewrite (correlate_with_eq lower CORRELATION_RULES w c).
  cbn [world_of state_of outcome_of fst snd].
  rewrite correlate_with_eq.
  cbn [world_of state_of outcome_of fst snd findings correlations with_step with_correlations].
  unfold emitted. rewrite !drop_app_length.
  split; [done|]. split; [by rewrite app_assoc|]. split; [|done].
  apply links_of_content.
Qed.

End PipelineTheory.

(** ** Error rate, pod health and report (metrics_agent_standalone.py) *)

Module MetricsChecksTheory.
Import Metrics MetricsChecks.

Lemma on_agent_log (w : World) (t : Telemetry) (a : MetricsAgent) :
  on_agent _log (w, (t, a)) = (Ret tt, (w, (t, with_step (S (step a)) a))).
Proof. reflexivity. Qed.

Lemma on_agent_add_finding (title description severity : string) (confidence : Q)
    (evidence : list (string * PyVal)) (w : World) (t : Telemetry) (a : MetricsAgent) :
  on_agent (_add_finding title description severity confidence evidence) (w, (t, a)) =
  (Ret tt,
   (tick_clock (tick_uuid w),
    (t, with_step (S (step a))
          (with_findings
             (findings a ++
              [mkFindingDict ("find-" +:+ uuid_stream w (uuid_drawn w)) "metrics_agent"
                 (clock w (clock_read w)) title description severity confidence evidence
                 ["payment-service"]]) a)))).
Proof. reflexivity. Qed.

(** *** The test of the list comprehension *)

Lemma in_bad_statuses_true (s : PyVal) :
  in_bad_statuses s = Ret true ↔
  ∃ x, s = VStr x ∧ (x = "CrashLoopBackOff" ∨ x = "OOMKilled").
Proof.
  unfold in_bad_statuses. split.
  - destruct s; cbn; try done. intros H. injection H as H.
    eexists. split; [done|].
    apply orb_true_iff in H as [H|H]; apply String.eqb_eq in H; auto.
  - intros (x & -> & [-> | ->]); reflexivity.
Qed.

Lemma in_bad_statuses_raise (s : PyVal) (e : PyExn) :
  in_bad_statuses s = Raise e ↔ e = TypeError ∧ hashable s = false.
Proof.
  unfold in_bad_statuses. destruct (hashable s); split.
  - done.
  - by intros [_ ?].
  - intros H. by injection H as <-.
  - by intros [-> _].
Qed.

Lemma is_unhealthy_true (info : PyVal) :
  is_unhealthy info = Ret true ↔
  ∃ d x, info = VDict d ∧ dict_get d "status" = Some (VStr x) ∧
         (x = "CrashLoopBackOff" ∨ x = "OOMKilled").
Proof.
  split.
  - destruct info; try done. cbn [is_unhealthy]. intros H.
    apply in_bad_statuses_true in H as (x & Hs & Hx).
    destruct (dict_get d "status") as [s|] eqn:E; [|done]. subst s. exists d, x. auto.
  - intros (d & x & -> & Hs & Hx). cbn [is_unhealthy]. rewrite Hs.
    apply in_bad_statuses_true. by exists x.
Qed.

Lemma is_unhealthy_raise (info : PyVal) (e : PyExn) :
  is_unhealthy info = Raise e ↔
  e = TypeError ∧ ∃ d s, info = VDict d ∧ dict_get d "status" = Some s ∧ hashable s = false.
Proof.
  split.
  - destruct info; try done. cbn [is_unhealthy]. intros H.
    apply in_bad_statuses_raise in H as [-> Hs]. split; [done|].
    destruct (dict_get d "status") as [s|] eqn:E; [|done]. exists d, s. auto.
  - intros (-> & d & s & -> & Hs & Hh). cbn [is_unhealthy]. rewrite Hs.
    by apply in_bad_statuses_raise.
Qed.

Lemma scan_pods_raise (ps : list (string * PyVal)) (e : PyExn) :
  scan_pods ps = Raise e → e = TypeError ∧ status_unhashable ps.
Proof.
  induction ps as [|[name info] ps IH]; [done|]. cbn [scan_pods].
  destruct (is_unhealthy info) as [b|e'] eqn:Hinfo.
  - destruct (scan_pods ps) as [names|e'']; [done|].
    intros H. injection H as ->. destruct (IH eq_refl) as (-> & n & d & s & Hin & Hs).
    split; [done|]. exists n, d, s. split; [by right|done].
  - intros H. injection H as ->.
    apply is_unhealthy_raise in Hinfo as (-> & d & s & -> & Hs).
    split; [done|]. exists name, d, s. split; [by left|done].
Qed.

Lemma scan_pods_unhashable (ps : list (string * PyVal)) :
  status_unhashable ps → scan_pods ps = Raise TypeError.
Proof.
  intros (n & d & s & Hin & Hs & Hh).
  induction ps as [|[name info] ps IH]; [by apply elem_of_nil in Hin|].
  cbn [scan_pods]. apply elem_of_cons in Hin as [Heq|Hin].
  - injection Heq as <- <-.
    rewrite (proj2 (is_unhealthy_raise (VDict d) TypeError)); [done|].
    split; [done|]. by exists d, s.
  - destruct (is_unhealthy info) as [b|e] eqn:Hinfo.
    + by rewrite (IH Hin).
    + by apply is_unhealthy_raise in Hinfo as [-> _].
Qed.

Lemma scan_pods_ret (ps : list (string * PyVal)) :
  ∀ bad, scan_pods ps = Ret bad →
         bad `sublist_of` map fst ps ∧ (∀ name, name ∈ bad ↔ crashed ps name).
Proof.
  induction ps as [|[name info] ps IH]; intros bad.
  { intros H. injection H as <-. split; [done|]. intros n. split.
    - intros Hn. by apply elem_of_nil in Hn.
    - intros (d & x & Hin & _). by apply elem_of_nil in Hin. }
  cbn [scan_pods].
  destruct (is_unhealthy info) as [b|e] eqn:Hinfo; [|done].
  destruct (scan_pods ps) as [names|e]; [|done].
  destruct (IH names eq_refl) as [Hsub Hmem].
  intros H. injection H as <-. cbn [map fst]. destruct b.
  - split; [by apply sublist_skip|].
    apply is_unhealthy_true in Hinfo as (d & x & -> & Hs & Hx).
    intros n. rewrite elem_of_cons, Hmem. split.
    + intros [->|(d' & x' & Hin & H')].
      * exists d, x. split; [by left|done].
      * exists d', x'. split; [by right|done].
    + intros (d' & x' & Hin & H'). apply elem_of_cons in Hin as [Heq|Hin].
      * left. by injection Heq.
      * right. by exists d', x'.
  - split; [by apply sublist_cons|].
    intros n. rewrite Hmem. split.
    + intros (d' & x' & Hin & H'). exists d', x'. split; [by right|done].
    + intros (d' & x' & Hin & Hs & Hx). apply elem_of_cons in Hin as [Heq|Hin].
      * injection Heq as -> <-.
        assert (is_unhealthy (VDict d') = Ret true) by (apply is_unhealthy_true; eauto).
        congruence.
      * by exists d', x'.
Qed.

Lemma scan_pods_hashable (ps : list (string * PyVal)) :
  statuses_hashable ps → ∃ bad, scan_pods ps = Ret bad.
Proof.
  intros Hh. destruct (scan_pods ps) as [bad|e] eqn:E; [by exists bad|].
  apply scan_pods_raise in E as (_ & n & d & s & Hin & Hs & Hno).
  rewrite (Hh n d s Hin Hs) in Hno. done.
Qed.

(** A dictionary holds one value per key. *)
Lemma dict_get_NoDup (ps : list (string * PyVal)) (name : string) (info : PyVal) :
  NoDup (map fst ps) → (name, info) ∈ ps → dict_get ps name = Some info.
Proof.
  induction ps as [|[k v] ps IH]; intros Hnd Hin; [by apply elem_of_nil in Hin|].
  cbn [map fst] in Hnd. apply NoDup_cons in Hnd as [Hk Hnd].
  cbn [dict_get]. apply elem_of_cons in Hin as [Heq|Hin].
  - injection Heq as <- <-. by rewrite String.eqb_refl.
  - destruct (String.eqb k name) eqn:E; [|by apply IH].
    apply String.eqb_eq in E as ->. exfalso. apply Hk.
    apply list_elem_of_fmap. by exists (name, info).
Qed.

Section WithRuntime.
Variable rt : Runtime.

(** The loop over the unhealthy pods touches the step counter only. *)
Lemma pod_loop_frame (ps : list (string * PyVal)) (names : list string) :
  ∀ (w : World) (t : Telemetry) (a : MetricsAgent),
    ∃ o n,
      for_each names
        (fun pod =>
           info ← item ps pod;
           _ ← subscript info "status";
           on_agent _log ;;
           _ ← str_of rt (get_or_unknown (reading "restart_count" info));
           mret tt)
        (w, (t, a))
      = (o, (w, (t, with_step n a))).
Proof.
  induction names as [|n names IH]; intros w t a.
  - exists (Ret tt), (step a). by destruct a.
  - cbn [for_each]. rewrite bind_eq, bind_eq. unfold item at 1.
    destruct (dict_get ps n) as [info|]; [|exists (Raise (KeyError n)), (step a); by destruct a].
    cbn [mret Py_ret py_ret]. rewrite bind_eq.
    destruct info as [| | | | | | | |d];
      try (exists (Raise TypeError), (step a); by destruct a).
    cbn [subscript]. unfold item at 1.
    destruct (dict_get d "status") as [s|];
      [|exists (Raise (KeyError "status")), (step a); by destruct a].
    cbn [mret Py_ret py_ret]. rewrite bind_eq, on_agent_log, bind_eq. unfold str_of at 1.
    destruct (py_str rt _) as [txt|e]; [|by exists (Raise e), (S (step a))].
    cbn [mret Py_ret py_ret].
    destruct (IH w t (with_step (S (step a)) a)) as (o & k & ->).
    by exists o, k.
Qed.

(** It logs one step for each pod when each is a dictionary with a
    status and a restart count whose text can be formed. *)
Lemma pod_loop (ps : list (string * PyVal)) (names : list string) :
  (∀ name, name ∈ names →
     ∃ d s, dict_get ps name = Some (VDict d) ∧ dict_get d "status" = Some s ∧
            formattable rt (get_or_unknown (dict_get d "restart_count"))) →
  ∀ (w : World) (t : Telemetry) (a : MetricsAgent),
    for_each names
      (fun pod =>
         info ← item ps pod;
         _ ← subscript info "status";
         on_agent _log ;;
         _ ← str_of rt (get_or_unknown (reading "restart_count" info));
         mret tt)
      (w, (t, a))
    = (Ret tt, (w, (t, with_step (length names + step a) a))).
Proof.
  induction names as [|n names IH]; intros Hall w t a.
  - by destruct a.
  - destruct (Hall n) as (d & s & Hn & Hs & Hfmt); [by left|].
    cbn [for_each]. rewrite bind_eq, bind_eq. unfold item at 1. rewrite Hn.
    cbn [mret Py_ret py_ret]. rewrite bind_eq. cbn [subscript]. unfold item at 1.
    rewrite Hs. cbn [mret Py_ret py_ret]. rewrite bind_eq, on_agent_log, bind_eq.
    cbn [reading].
    destruct (MetricsTheory.str_of_formattable (St := Agent) rt _
                (w, (t, with_step (S (step a)) a)) Hfmt) as [txt ->].
    cbn [mret Py_ret py_ret]. rewrite IH.
    + cbn [length]. unfold with_step. cbn. by rewrite Nat.add_succ_r.
    + intros m Hm. apply Hall. by right.
Qed.



End WithRuntime.



Example error_rate_peak :
  fd_evidence <$>
    findings (snd (state_of (check_error_rate Samples.runtime
                               (Samples.w0, (MetricsSamples.telemetry_crash, Samples.agent_no_data)))))
  = [[("baseline_pct", VFloat 0.1); ("peak_pct", VFloat 87.3)]].
Proof. by vm_compute. Qed.
Lemma report_eq (w : World) (a : MetricsAgent) :
  report (w, a) =
  (Ret (mkStatus ("msg-" +:+ uuid_stream w (uuid_drawn w)) "metrics_agent" "commander"
          "STATUS_UPDATE" "complete" (length (findings a))
          (map (fun f => mkSummary (fd_id f) (fd_title f) (fd_severity f)) (findings a))),
   (tick_uuid w, with_step (S (step a)) a)).
Proof. reflexivity. Qed.

(** X18. [report] returns a STATUS_UPDATE from metrics_agent to commander
    whose findings count is the number of findings the agent holds and
    whose summary has, position by position, the id, title and severity of
    those findings; it draws one identifier for the message and leaves the
    findings as they are. *)
Theorem report_reconciles (w : World) (a : MetricsAgent) :
  ∃ msg, outcome_of (report (w, a)) = Ret msg ∧
         su_findings_count msg = length (findings a) ∧
         length (su_summary msg) = su_findings_count msg ∧
         (∀ i f, findings a !! i = Some f →
                 su_summary msg !! i = Some (mkSummary (fd_id f) (fd_title f) (fd_severity f))) ∧
         su_sender msg = "metrics_agent" ∧ su_receiver msg = "commander" ∧
         su_type msg = "STATUS_UPDATE" ∧
         su_id msg = "msg-" +:+ uuid_stream w (uuid_drawn w) ∧
         findings (state_of (report (w, a))) = findings a ∧
         world_of (report (w, a)) = tick_uuid w.
Proof.
  rewrite report_eq. eexists. split; [reflexivity|]. cbn [su_findings_count su_summary].
  split; [done|]. split; [by rewrite length_map|]. split; [|done].
  intros i f Hi.
  change (map ?g (findings a)) with (g <$> findings a). by rewrite list_lookup_fmap, Hi.
Qed.

End MetricsChecksTheory.
